(** * camera-spline: rig geometry, selection store and Bezier path

    A shallow embedding of [app.jsx] (the variant with the spline and the
    tangent handles) and the properties of its geometry and of its shared
    selection store.

    Conventions of the embedding.
    - JavaScript numbers are read as real numbers ([R]): rounding, NaN and
      the infinities of IEEE doubles are idealised away, and so is the
      rounding to single precision of [Float32Array].  A buffer
      ([Float32Array], [Uint16Array]) is the list of its elements.
    - The rig ids are the strings ["0"], ["1"], ... that [CameraBundle]
      builds from the keys of [Array(count)]; they index the position
      tables, so they are natural numbers here.
    - A JavaScript array that may have holes is a list of optional entries
      ([None] is a hole, read back as [undefined]).
    - The parts of three.js, leva, valtio and react-three-fiber that the
      program calls are modelled in the modules [THREE], [Leva] and in the
      event semantics of [step], after the libraries' documented behaviour. *)

From Stdlib Require Import Reals Lra Lia List Arith Bool String.
Import ListNotations.

Open Scope R_scope.

(* ================================================================== *)
(** * Definitions *)
(* ================================================================== *)

(** ** The part of three.js that the program uses *)

Module THREE.

(** [THREE.Vector3]. *)
Record Vector3 : Type := vec3 { x : R; y : R; z : R }.

(** [new THREE.Vector3()] is the origin. *)
Definition origin : Vector3 := vec3 0 0 0.

(** [a.sub(b)], [a.add(b)]: componentwise. *)
Definition sub (a b : Vector3) : Vector3 :=
  vec3 (x a - x b) (y a - y b) (z a - z b).

Definition add (a b : Vector3) : Vector3 :=
  vec3 (x a + x b) (y a + y b) (z a + z b).

(** [v.length()] is [Math.sqrt(x*x + y*y + z*z)]. *)
Definition length (v : Vector3) : R :=
  sqrt (x v * x v + y v * y v + z v * z v).

(** [v.divideScalar(s)] multiplies by [1 / s]. *)
Definition divideScalar (v : Vector3) (s : R) : Vector3 :=
  vec3 (x v * (1 / s)) (y v * (1 / s)) (z v * (1 / s)).

(** [v.normalize()] is [v.divideScalar(v.length() || 1)]. *)
Definition normalize (v : Vector3) : Vector3 :=
  divideScalar v (if Req_dec_T (length v) 0 then 1 else length v).

(** [THREE.Matrix4]; the field [nRC] is the entry of row [R], column [C]
    (the element [elements[4*(C-1) + (R-1)]] of the column-major array). *)
Record Matrix4 : Type := mat4 {
  n11 : R; n12 : R; n13 : R; n14 : R;
  n21 : R; n22 : R; n23 : R; n24 : R;
  n31 : R; n32 : R; n33 : R; n34 : R;
  n41 : R; n42 : R; n43 : R; n44 : R }.

Definition identity : Matrix4 :=
  mat4 1 0 0 0
       0 1 0 0
       0 0 1 0
       0 0 0 1.

Definition zero : Matrix4 :=
  mat4 0 0 0 0
       0 0 0 0
       0 0 0 0
       0 0 0 0.

(** [a.multiply(b)]: the matrix product. *)
Definition multiply (a b : Matrix4) : Matrix4 :=
  mat4
  (n11 a * n11 b + n12 a * n21 b + n13 a * n31 b + n14 a * n41 b)
  (n11 a * n12 b + n12 a * n22 b + n13 a * n32 b + n14 a * n42 b)
  (n11 a * n13 b + n12 a * n23 b + n13 a * n33 b + n14 a * n43 b)
  (n11 a * n14 b + n12 a * n24 b + n13 a * n34 b + n14 a * n44 b)
  (n21 a * n11 b + n22 a * n21 b + n23 a * n31 b + n24 a * n41 b)
  (n21 a * n12 b + n22 a * n22 b + n23 a * n32 b + n24 a * n42 b)
  (n21 a * n13 b + n22 a * n23 b + n23 a * n33 b + n24 a * n43 b)
  (n21 a * n14 b + n22 a * n24 b + n23 a * n34 b + n24 a * n44 b)
  (n31 a * n11 b + n32 a * n21 b + n33 a * n31 b + n34 a * n41 b)
  (n31 a * n12 b + n32 a * n22 b + n33 a * n32 b + n34 a * n42 b)
  (n31 a * n13 b + n32 a * n23 b + n33 a * n33 b + n34 a * n43 b)
  (n31 a * n14 b + n32 a * n24 b + n33 a * n34 b + n34 a * n44 b)
  (n41 a * n11 b + n42 a * n21 b + n43 a * n31 b + n44 a * n41 b)
  (n41 a * n12 b + n42 a * n22 b + n43 a * n32 b + n44 a * n42 b)
  (n41 a * n13 b + n42 a * n23 b + n43 a * n33 b + n44 a * n43 b)
  (n41 a * n14 b + n42 a * n24 b + n43 a * n34 b + n44 a * n44 b).

(** Determinant of the 3x3 matrix with rows [a], [b], [c]. *)
Definition det3 (a1 a2 a3 b1 b2 b3 c1 c2 c3 : R) : R :=
  a1 * (b2 * c3 - b3 * c2) - a2 * (b1 * c3 - b3 * c1)
  + a3 * (b1 * c2 - b2 * c1).

(** Cofactors of a matrix: [cofRC] is the signed minor obtained by
    deleting row [R] and column [C]. *)
Section Cofactors.
Variable m : Matrix4.

Definition cof11 := det3 (n22 m) (n23 m) (n24 m) (n32 m) (n33 m) (n34 m) (n42 m) (n43 m) (n44 m).
Definition cof12 := - det3 (n21 m) (n23 m) (n24 m) (n31 m) (n33 m) (n34 m) (n41 m) (n43 m) (n44 m).
Definition cof13 := det3 (n21 m) (n22 m) (n24 m) (n31 m) (n32 m) (n34 m) (n41 m) (n42 m) (n44 m).
Definition cof14 := - det3 (n21 m) (n22 m) (n23 m) (n31 m) (n32 m) (n33 m) (n41 m) (n42 m) (n43 m).
Definition cof21 := - det3 (n12 m) (n13 m) (n14 m) (n32 m) (n33 m) (n34 m) (n42 m) (n43 m) (n44 m).
Definition cof22 := det3 (n11 m) (n13 m) (n14 m) (n31 m) (n33 m) (n34 m) (n41 m) (n43 m) (n44 m).
Definition cof23 := - det3 (n11 m) (n12 m) (n14 m) (n31 m) (n32 m) (n34 m) (n41 m) (n42 m) (n44 m).
Definition cof24 := det3 (n11 m) (n12 m) (n13 m) (n31 m) (n32 m) (n33 m) (n41 m) (n42 m) (n43 m).
Definition cof31 := det3 (n12 m) (n13 m) (n14 m) (n22 m) (n23 m) (n24 m) (n42 m) (n43 m) (n44 m).
Definition cof32 := - det3 (n11 m) (n13 m) (n14 m) (n21 m) (n23 m) (n24 m) (n41 m) (n43 m) (n44 m).
Definition cof33 := det3 (n11 m) (n12 m) (n14 m) (n21 m) (n22 m) (n24 m) (n41 m) (n42 m) (n44 m).
Definition cof34 := - det3 (n11 m) (n12 m) (n13 m) (n21 m) (n22 m) (n23 m) (n41 m) (n42 m) (n43 m).
Definition cof41 := - det3 (n12 m) (n13 m) (n14 m) (n22 m) (n23 m) (n24 m) (n32 m) (n33 m) (n34 m).
Definition cof42 := det3 (n11 m) (n13 m) (n14 m) (n21 m) (n23 m) (n24 m) (n31 m) (n33 m) (n34 m).
Definition cof43 := - det3 (n11 m) (n12 m) (n14 m) (n21 m) (n22 m) (n24 m) (n31 m) (n32 m) (n34 m).
Definition cof44 := det3 (n11 m) (n12 m) (n13 m) (n21 m) (n22 m) (n23 m) (n31 m) (n32 m) (n33 m).

(** [m.determinant()], expanded along the first column. *)
Definition determinant : R :=
  n11 m * cof11 + n21 m * cof21 + n31 m * cof31 + n41 m * cof41.

(** [m.invert()]: the transposed cofactors over the determinant, and
    the zero matrix when the determinant is [0]. *)
Definition invert : Matrix4 :=
  if Req_dec_T determinant 0 then zero
  else
    let detInv := 1 / determinant in
    mat4 (cof11 * detInv) (cof21 * detInv) (cof31 * detInv) (cof41 * detInv)
         (cof12 * detInv) (cof22 * detInv) (cof32 * detInv) (cof42 * detInv)
         (cof13 * detInv) (cof23 * detInv) (cof33 * detInv) (cof43 * detInv)
         (cof14 * detInv) (cof24 * detInv) (cof34 * detInv) (cof44 * detInv).
End Cofactors.

(** [v.applyMatrix4(m)]: the product of [m] with [(x, y, z, 1)], divided
    by its fourth coordinate. *)
Definition applyMatrix4 (v : Vector3) (m : Matrix4) : Vector3 :=
  let w := 1 / (n41 m * x v + n42 m * y v + n43 m * z v + n44 m) in
  vec3 ((n11 m * x v + n12 m * y v + n13 m * z v + n14 m) * w)
       ((n21 m * x v + n22 m * y v + n23 m * z v + n24 m) * w)
       ((n31 m * x v + n32 m * y v + n33 m * z v + n34 m) * w).

(** [Matrix4.makePerspective(left, right, top, bottom, near, far)]. *)
Definition makePerspective (left right top bottom near far : R) : Matrix4 :=
  let px := 2 * near / (right - left) in
  let py := 2 * near / (top - bottom) in
  let a := (right + left) / (right - left) in
  let b := (top + bottom) / (top - bottom) in
  let c := - (far + near) / (far - near) in
  let d := - 2 * far * near / (far - near) in
  mat4 px 0  a    0
       0  py b    0
       0  0  c    d
       0  0  (-1) 0.

(** [THREE.PerspectiveCamera]: only the intrinsics matter here (zoom 1,
    no view offset, no film offset). *)
Record PerspectiveCamera : Type := newPerspectiveCamera {
  fov : R; aspect : R; near : R; far : R }.

Definition DEG2RAD : R := PI / 180.

(** [camera.updateProjectionMatrix()].  At singular intrinsics ([fov] at
    [0] or [180], [near = far]) the reading of numbers as reals parts
    from floating point (the tangent of a right angle has no real value,
    a division by zero gives no infinity), so what is proved of the
    projection and of its inverse is stated for [valid_intrinsics]. *)
Definition projectionMatrix (c : PerspectiveCamera) : Matrix4 :=
  let top := near c * tan (DEG2RAD * (1 / 2) * fov c) in
  let height := 2 * top in
  let width := aspect c * height in
  let left := - (1 / 2) * width in
  makePerspective left (left + width) top (top - height) (near c) (far c).

Definition projectionMatrixInverse (c : PerspectiveCamera) : Matrix4 :=
  invert (projectionMatrix c).

(** The Bernstein weights of [Interpolations.js]. *)
Definition CubicBezierP0 (t p : R) : R := let k := 1 - t in k * k * k * p.
Definition CubicBezierP1 (t p : R) : R := let k := 1 - t in 3 * k * k * t * p.
Definition CubicBezierP2 (t p : R) : R := 3 * (1 - t) * t * t * p.
Definition CubicBezierP3 (t p : R) : R := t * t * t * p.

Definition CubicBezier (t p0 p1 p2 p3 : R) : R :=
  CubicBezierP0 t p0 + CubicBezierP1 t p1 + CubicBezierP2 t p2
  + CubicBezierP3 t p3.

(** [THREE.CubicBezierCurve3]. *)
Record CubicBezierCurve3 : Type := curve3 {
  v0 : Vector3; v1 : Vector3; v2 : Vector3; v3 : Vector3 }.

(** The constructor replaces a missing ([undefined]) control point by
    [new Vector3()]. *)
Definition newCubicBezierCurve3 (a b c d : option Vector3)
  : CubicBezierCurve3 :=
  let dflt (o : option Vector3) :=
    match o with Some v => v | None => origin end in
  curve3 (dflt a) (dflt b) (dflt c) (dflt d).

(** [curve.getPoint(t)]. *)
Definition getPoint (c : CubicBezierCurve3) (t : R) : Vector3 :=
  vec3 (CubicBezier t (x (v0 c)) (x (v1 c)) (x (v2 c)) (x (v3 c)))
       (CubicBezier t (y (v0 c)) (y (v1 c)) (y (v2 c)) (y (v3 c)))
       (CubicBezier t (z (v0 c)) (z (v1 c)) (z (v2 c)) (z (v3 c))).

(** [curve.getPoints(divisions)]: the points at [d / divisions] for
    [d = 0, ..., divisions], so [divisions + 1] of them. *)
Definition getPoints (c : CubicBezierCurve3) (divisions : nat)
  : list Vector3 :=
  map (fun d => getPoint c (INR d / INR divisions)) (seq 0 (S divisions)).

End THREE.


(** ** The part of leva that the program uses *)

Module Leva.

(** A number input [{ value, min, max, step }] of a [useControls] schema. *)
Record NumberInput : Type := number {
  value : R; min : R; max : R; step : R }.

(** leva's [clamp(x, min, max)] is [x > max ? max : x < min ? min : x]. *)
Definition clamp (v lo hi : R) : R :=
  if Rlt_dec hi v then hi else if Rlt_dec v lo then lo else v.

(** Every value that reaches a number input, typed in the panel or passed
    to [set], goes through the input's [sanitize], which clamps it to
    [min, max]; the step only drives the drag and the arrow keys. *)
Definition sanitize (c : NumberInput) (v : R) : R :=
  clamp v (min c) (max c).

End Leva.

(** ** JavaScript arrays *)

Definition JSArray (A : Type) : Type := list (option A).

(** [arr[i]]: [undefined] on a hole and past the end. *)
Definition get {A : Type} (arr : JSArray A) (i : nat) : option A :=
  match nth_error arr i with
  | Some e => e
  | None => None
  end.

(** [i in arr]. *)
Definition has {A : Type} (arr : JSArray A) (i : nat) : bool :=
  match get arr i with
  | Some _ => true
  | None => false
  end.

(** [arr[i] = v]: replaces the entry, or extends the array with holes up to
    index [i]. *)
Definition put {A : Type} (arr : JSArray A) (i : nat) (v : A) : JSArray A :=
  if i <? List.length arr
  then firstn i arr ++ Some v :: skipn (S i) arr
  else arr ++ repeat None (i - List.length arr) ++ [Some v].

(** [arr.slice(0, n)]. *)
Definition slice0 {A : Type} (arr : JSArray A) (n : nat) : JSArray A :=
  firstn n arr.

(** [arr.push(a, b, c)]. *)
Definition push {A : Type} (arr : list A) (items : list A) : list A :=
  arr ++ items.

(** [for (let i = lo; i < lo + n; i++) acc = body(i, acc)]. *)
Fixpoint for_range {A : Type} (lo n : nat) (body : nat -> A -> A) (acc : A)
  : A :=
  match n with
  | O => acc
  | S n' => for_range (S lo) n' body (body lo acc)
  end.

(** ** The shared store *)

(** [const modes = ["translate", "rotate"]]. *)
Definition modes : list string := ["translate"%string; "rotate"%string].

(** The valtio proxy [state]. *)
Record Store : Type := mkStore {
  focal : option nat;
  focalPos : JSArray THREE.Vector3;
  leftHandlePos : JSArray THREE.Vector3;
  rightHandlePos : JSArray THREE.Vector3;
  mode : nat }.

Definition state0 : Store := mkStore None [] [] [] 0.

Definition set_focal (f : option nat) (st : Store) : Store :=
  mkStore f (focalPos st) (leftHandlePos st) (rightHandlePos st) (mode st).

Definition set_mode (m : nat) (st : Store) : Store :=
  mkStore (focal st) (focalPos st) (leftHandlePos st) (rightHandlePos st) m.

(** The three table writes of [useFrame] and of [CameraBundle]. *)
Definition publish (id : nat) (f l r : THREE.Vector3) (st : Store) : Store :=
  mkStore (focal st)
          (put (focalPos st) id f)
          (put (leftHandlePos st) id l)
          (put (rightHandlePos st) id r)
          (mode st).

(** ** [ComputeFrustumVertices] and [Frustum] *)

Definition ComputeFrustumVertices (fov aspect near far : R) : list R :=
  let camera := THREE.newPerspectiveCamera fov aspect near far in
  let projInv := THREE.projectionMatrixInverse camera in
  let frustumVertices := [] in
  let v0 := THREE.vec3 0 0 0 in
  let v1 := THREE.applyMatrix4 (THREE.vec3 (-1) (-1) 1) projInv in
  let v2 := THREE.applyMatrix4 (THREE.vec3 (-1) 1 1) projInv in
  let v3 := THREE.applyMatrix4 (THREE.vec3 1 1 1) projInv in
  let v4 := THREE.applyMatrix4 (THREE.vec3 1 (-1) 1) projInv in
  let frustumVertices :=
    push frustumVertices [THREE.x v0; THREE.y v0; THREE.z v0] in
  let frustumVertices :=
    push frustumVertices [THREE.x v1; THREE.y v1; THREE.z v1] in
  let frustumVertices :=
    push frustumVertices [THREE.x v2; THREE.y v2; THREE.z v2] in
  let frustumVertices :=
    push frustumVertices [THREE.x v3; THREE.y v3; THREE.z v3] in
  let frustumVertices :=
    push frustumVertices [THREE.x v4; THREE.y v4; THREE.z v4] in
  frustumVertices.

Definition frustum_indices : list nat :=
  [0; 1; 2; 0; 2; 3; 0; 3; 4; 0; 4; 1; 1; 4; 3; 1; 3; 2]%nat.

(** The two buffers that [Frustum] attaches to its geometry. *)
Definition Frustum (fov aspect near far : R) : list R * list nat :=
  (ComputeFrustumVertices fov aspect near far, frustum_indices).

(** The vertices of a position buffer with [itemSize = 3]. *)
Fixpoint vertices (buf : list R) : list THREE.Vector3 :=
  match buf with
  | a :: b :: c :: rest => THREE.vec3 a b c :: vertices rest
  | _ => []
  end.

(** The position buffer of a list of points. *)
Definition coords (pts : list THREE.Vector3) : list R :=
  flat_map (fun p => [THREE.x p; THREE.y p; THREE.z p]) pts.

(** ** [AuxCamera]: one rig *)

Module AuxCamera.

(** The number inputs of the folder [Camera id]. *)
Definition near_input : Leva.NumberInput := Leva.number 0.1 0.01 1 0.05.
Definition far_input : Leva.NumberInput := Leva.number 3 1 10 0.1.
Definition fov_input : Leva.NumberInput := Leva.number 55 0 180 1.
Definition aspect_input : Leva.NumberInput := Leva.number 1.6 0.1 10 0.1.
Definition leftHandle_input : Leva.NumberInput := Leva.number 0.5 0.1 2 0.1.
Definition rightHandle_input : Leva.NumberInput := Leva.number 0.5 0.1 2 0.1.

(** The values that [useControls] returns for the folder. *)
Record Controls : Type := mkControls {
  pos : THREE.Vector3;
  rot : THREE.Vector3;
  foc : THREE.Vector3;
  near : R;
  far : R;
  fov : R;
  aspect : R;
  frustum : bool;
  helper : bool;
  leftHandle : R;
  rightHandle : R }.

(** The first call of [useControls]: the props give the three vectors, the
    schema gives the rest.  No argument of the component carries
    intrinsics. *)
Definition useControls (initPos initRot initFocal : THREE.Vector3)
  : Controls :=
  mkControls initPos initRot initFocal
             (Leva.value near_input) (Leva.value far_input)
             (Leva.value fov_input) (Leva.value aspect_input)
             true true
             (Leva.value leftHandle_input) (Leva.value rightHandle_input).

(** An edit of one field, from the panel or through [set]. *)
Inductive Edit : Type :=
| edit_pos (v : THREE.Vector3)
| edit_rot (v : THREE.Vector3)
| edit_foc (v : THREE.Vector3)
| edit_near (v : R)
| edit_far (v : R)
| edit_fov (v : R)
| edit_aspect (v : R)
| edit_frustum (b : bool)
| edit_helper (b : bool)
| edit_leftHandle (v : R)
| edit_rightHandle (v : R).

Definition set (e : Edit) (c : Controls) : Controls :=
  match e with
  | edit_pos v =>
      mkControls v (rot c) (foc c) (near c) (far c) (fov c) (aspect c)
                 (frustum c) (helper c) (leftHandle c) (rightHandle c)
  | edit_rot v =>
      mkControls (pos c) v (foc c) (near c) (far c) (fov c) (aspect c)
                 (frustum c) (helper c) (leftHandle c) (rightHandle c)
  | edit_foc v =>
      mkControls (pos c) (rot c) v (near c) (far c) (fov c) (aspect c)
                 (frustum c) (helper c) (leftHandle c) (rightHandle c)
  | edit_near v =>
      mkControls (pos c) (rot c) (foc c) (Leva.sanitize near_input v) (far c)
                 (fov c) (aspect c) (frustum c) (helper c) (leftHandle c)
                 (rightHandle c)
  | edit_far v =>
      mkControls (pos c) (rot c) (foc c) (near c) (Leva.sanitize far_input v)
                 (fov c) (aspect c) (frustum c) (helper c) (leftHandle c)
                 (rightHandle c)
  | edit_fov v =>
      mkControls (pos c) (rot c) (foc c) (near c) (far c)
                 (Leva.sanitize fov_input v) (aspect c) (frustum c) (helper c)
                 (leftHandle c) (rightHandle c)
  | edit_aspect v =>
      mkControls (pos c) (rot c) (foc c) (near c) (far c) (fov c)
                 (Leva.sanitize aspect_input v) (frustum c) (helper c)
                 (leftHandle c) (rightHandle c)
  | edit_frustum b =>
      mkControls (pos c) (rot c) (foc c) (near c) (far c) (fov c) (aspect c)
                 b (helper c) (leftHandle c) (rightHandle c)
  | edit_helper b =>
      mkControls (pos c) (rot c) (foc c) (near c) (far c) (fov c) (aspect c)
                 (frustum c) b (leftHandle c) (rightHandle c)
  | edit_leftHandle v =>
      mkControls (pos c) (rot c) (foc c) (near c) (far c) (fov c) (aspect c)
                 (frustum c) (helper c) (Leva.sanitize leftHandle_input v)
                 (rightHandle c)
  | edit_rightHandle v =>
      mkControls (pos c) (rot c) (foc c) (near c) (far c) (fov c) (aspect c)
                 (frustum c) (helper c) (leftHandle c)
                 (Leva.sanitize rightHandle_input v)
  end.

(** The scene objects of the rig.  The camera and the focal mesh hang from
    the scene root, so their world position is their [position]; the two
    handles and the frustum are children of the camera, so their
    [position] is camera-local. *)
Record Objects : Type := mkObjects {
  camera_position : THREE.Vector3;
  camera_rotation : THREE.Vector3;
  leftHandle_position : THREE.Vector3;
  rightHandle_position : THREE.Vector3;
  focal_position : THREE.Vector3;
  frustum_mesh : option (list R * list nat) }.

(** [const z_depth = -new Vector3(pos).sub(new Vector3(foc)).length()]. *)
Definition z_depth (c : Controls) : R :=
  - THREE.length (THREE.sub (pos c) (foc c)).

(** The body of the component: the props that the returned elements put on
    the objects. *)
Definition render (c : Controls) : Objects :=
  mkObjects (pos c) (rot c)
            (THREE.vec3 (- leftHandle c) 0 (z_depth c))
            (THREE.vec3 (rightHandle c) 0 (z_depth c))
            (foc c)
            (if frustum c
             then Some (Frustum (fov c) (aspect c) (near c) (far c))
             else None).

(** The dashed segment that [useFrame] rebuilds from the handles. *)
Definition lineVertices (o : Objects) : list R :=
  let lineVertices := [] in
  let lineVertices :=
    push lineVertices [THREE.x (leftHandle_position o);
                       THREE.y (leftHandle_position o);
                       THREE.z (leftHandle_position o)] in
  let lineVertices :=
    push lineVertices [THREE.x (rightHandle_position o);
                       THREE.y (rightHandle_position o);
                       THREE.z (rightHandle_position o)] in
  lineVertices.

(** [useFrame], on the controls: the world pose of the camera and the world
    position of the focal mesh are written back to the panel. *)
Definition useFrame (o : Objects) (c : Controls) : Controls :=
  let c := set (edit_pos (camera_position o)) c in
  let c := set (edit_rot (camera_rotation o)) c in
  let c := set (edit_foc (focal_position o)) c in
  c.

(** [useFrame], on the store: the world positions of the focal mesh and of
    the two handles are published under the rig's id.  [localToWorld] is
    the camera's world transform. *)
Definition useFrame_publish (id : nat)
    (localToWorld : THREE.Vector3 -> THREE.Vector3)
    (o : Objects) (st : Store) : Store :=
  publish id (focal_position o)
          (localToWorld (leftHandle_position o))
          (localToWorld (rightHandle_position o))
          st.

(** One frame of the rig: [useFrame], then the render that the changed
    controls cause. *)
Definition perFrameUpdate (o : Objects) (c : Controls) : Objects * Controls :=
  let c' := useFrame o c in
  (render c', c').

(** [updateFocal] of [Controls], on the objects of the selected rig.
    [lookAt position target] is the rotation that [cam.lookAt] computes. *)
Definition updateFocal
    (lookAt : THREE.Vector3 -> THREE.Vector3 -> THREE.Vector3)
    (o : Objects) : Objects :=
  let focalPos := focal_position o in
  let rotation := lookAt (camera_position o) focalPos in
  let camPos := camera_position o in
  let z_depth := - THREE.length (THREE.sub camPos focalPos) in
  mkObjects camPos rotation
            (THREE.vec3 (THREE.x (leftHandle_position o))
                        (THREE.y (leftHandle_position o)) z_depth)
            (THREE.vec3 (THREE.x (rightHandle_position o))
                        (THREE.y (rightHandle_position o)) z_depth)
            focalPos
            (frustum_mesh o).

End AuxCamera.

(** ** [CameraBundle] *)

Definition interval : R := 2.

Definition bundle_offset (count : nat) : R :=
  (- interval * (INR count - 1)) / 2.

Definition initPos (count : nat) (initHeight : R) (id : nat) : THREE.Vector3 :=
  THREE.vec3 (bundle_offset count + interval * INR id) initHeight 2.5.

Definition initFocal (count : nat) (initHeight : R) (id : nat)
  : THREE.Vector3 :=
  let focal := THREE.vec3 0 initHeight 0 in
  let diff := THREE.normalize (THREE.sub focal (initPos count initHeight id)) in
  THREE.add (initPos count initHeight id) diff.

(** The body of the [map] callback: the tables get an entry for a rig that
    has none yet (both handle tables start at the camera position). *)
Definition CameraBundle_item (count : nat) (initHeight : R) (st : Store)
    (id : nat) : Store :=
  if negb (has (leftHandlePos st) id)
  then publish id (initFocal count initHeight id)
               (initPos count initHeight id) (initPos count initHeight id) st
  else st.

(** [[...Array(count).keys()].map(...)], on the store. *)
Definition CameraBundle_render (count : nat) (initHeight : R) (st : Store)
  : Store :=
  fold_left (CameraBundle_item count initHeight) (seq 0 count) st.

(** The effect [useEffect(() => { state.focal = null }, [count])]. *)
Definition CameraBundle_effect (st : Store) : Store :=
  set_focal None st.

(** ** [Spline] *)

Definition samples_input : Leva.NumberInput := Leva.number 200 20 1000 10.

(** [computeCurve].  The element [points[i]] is read with the origin as
    default; the index stays below [samples], inside the [samples + 1]
    points that [getPoints] returns. *)
Definition computeCurve (st : Store) (count samples : nat) : list R :=
  let focalPos := slice0 (focalPos st) count in
  let leftPos := slice0 (leftHandlePos st) count in
  let rightPos := slice0 (rightHandlePos st) count in
  let verts := [] in
  for_range 0 (List.length focalPos - 1)
    (fun i verts =>
       let curve :=
         THREE.newCubicBezierCurve3
           (get focalPos i) (get rightPos i)
           (get leftPos (i + 1)) (get focalPos (i + 1)) in
       let points := THREE.getPoints curve samples in
       for_range 0 samples
         (fun i verts =>
            let p := nth i points THREE.origin in
            push verts [THREE.x p; THREE.y p; THREE.z p])
         verts)
    verts.

(** The curve that the outer loop of [computeCurve] builds at index [i]. *)
Definition curve_at (st : Store) (count i : nat) : THREE.CubicBezierCurve3 :=
  THREE.newCubicBezierCurve3
    (get (slice0 (focalPos st) count) i)
    (get (slice0 (rightHandlePos st) count) i)
    (get (slice0 (leftHandlePos st) count) (i + 1))
    (get (slice0 (focalPos st) count) (i + 1)).

(** What the component hands to the line: nothing unless [count > 1]. *)
Definition Spline (st : Store) (count samples : nat) : option (list R) :=
  if (1 <? count)%nat then Some (computeCurve st count samples) else None.

(** ** The application: store, snapshot and events *)

Definition count_input : Leva.NumberInput := Leva.number 4 0 10 1.
Definition height_input : Leva.NumberInput := Leva.number 1.75 0.1 3 0.1.

(** The count is a natural number; its input clamps it to [0, 10]. *)
Definition sanitize_count (c : nat) : nat := Nat.min c 10.

(** The application between two events: the store [state], the snapshot
    [snap] that the components took of it at their last render (the event
    handlers read [snap] and write [state]), and the two controls of [App]
    that reach [CameraBundle] and [Spline]. *)
Record World : Type := mkWorld {
  state : Store;
  snap : Store;
  count : nat;
  height : R }.

Inductive PointerType : Type := click | contextmenu | dblclick.

Inductive Event : Type :=
| Click (id : nat)
    (** a click that hits the focal mesh of rig [id] *)
| PointerMissed (ty : PointerType)
    (** a pointer event that hits no mesh with handlers *)
| ContextMenu (id : nat)
    (** a context-menu event that hits the focal mesh of rig [id] *)
| SetCount (c : nat)
    (** the [count] control is edited *)
| SetHeight (h : R)
    (** the [height] control is edited *)
| Frame (id : nat) (f l r : THREE.Vector3).
    (** [useFrame] of rig [id], with the world positions it reads *)

Definition with_state (f : Store -> Store) (w : World) : World :=
  mkWorld (f (state w)) (snap w) (count w) (height w).

(** The handlers.  A rig has handlers only while it is mounted, that is
    while its id is below [count].  A click on the focal mesh of a rig
    reaches the [onPointerMissed] of the other rigs first, which clears
    the selection, and then the [onClick] of the rig, which sets it: the
    net effect is the one assignment of the first case. *)
Definition handle (ev : Event) (w : World) : World :=
  match ev with
  | Click id =>
      if (id <? count w)%nat
      then with_state (set_focal (Some id)) w
      else w
  | PointerMissed ty =>
      if (0 <? count w)%nat
      then match ty with
           | click => with_state (set_focal None) w
           | _ => w
           end
      else w
  | ContextMenu id =>
      if (id <? count w)%nat
      then match focal (snap w) with
           | Some sel =>
               if (sel =? id)%nat
               then with_state
                      (set_mode ((mode (snap w) + 1) mod List.length modes)) w
               else w
           | None => w
           end
      else w
  | SetCount c =>
      let c' := sanitize_count c in
      let st := CameraBundle_render c' (height w / 2) (state w) in
      let st := if (c' =? count w)%nat then st else CameraBundle_effect st in
      mkWorld st (snap w) c' (height w)
  | SetHeight h =>
      let h' := Leva.sanitize height_input h in
      let st := CameraBundle_render (count w) (h' / 2) (state w) in
      mkWorld st (snap w) (count w) h'
  | Frame id f l r =>
      if (id <? count w)%nat
      then with_state (publish id f l r) w
      else w
  end.

(** A write to the store makes the subscribed components render again, with
    a fresh snapshot. *)
Definition rerender (w : World) : World :=
  mkWorld (state w) (state w) (count w) (height w).

Definition step (ev : Event) (w : World) : World :=
  rerender (handle ev w).

(** The first render: the controls hold their initial values, the bundle
    fills the tables and its effect runs once. *)
Definition mount : World :=
  let c := 4%nat in
  let h := Leva.value height_input in
  let st := CameraBundle_effect (CameraBundle_render c (h / 2) state0) in
  mkWorld st st c h.

Fixpoint run (evs : list Event) (w : World) : World :=
  match evs with
  | [] => w
  | ev :: evs' => run evs' (step ev w)
  end.

Inductive reachable : World -> Prop :=
| reachable_mount : reachable mount
| reachable_step : forall ev w, reachable w -> reachable (step ev w).

(** What [Controls] gives the camera gizmo: the selected rig and
    [modes[snap.mode]]. *)
Definition gizmoMode (w : World) : option string :=
  nth_error modes (mode (snap w)).

Definition selectedId (w : World) : option nat := focal (snap w).

(** ** The path, as the specification words it *)

(** The world positions that a rig publishes. *)
Record RigPositions : Type := mkRig {
  rig_focal : THREE.Vector3;
  rig_left : THREE.Vector3;
  rig_right : THREE.Vector3 }.

(** The store holds the collection [rigs] in its first entries. *)
Definition holds (st : Store) (rigs : list RigPositions) : Prop :=
  forall i rig, nth_error rigs i = Some rig ->
    get (focalPos st) i = Some (rig_focal rig) /\
    get (leftHandlePos st) i = Some (rig_left rig) /\
    get (rightHandlePos st) i = Some (rig_right rig).

(** The segment between two consecutive rigs. *)
Definition segment (a b : RigPositions) : THREE.CubicBezierCurve3 :=
  THREE.curve3 (rig_focal a) (rig_right a) (rig_left b) (rig_focal b).

(** The samples of a segment: the parameters [k / samples], [k < samples]. *)
Definition sample (c : THREE.CubicBezierCurve3) (samples : nat)
  : list THREE.Vector3 :=
  map (fun k => THREE.getPoint c (INR k / INR samples)) (seq 0 samples).

(** One segment per consecutive pair, in rig order. *)
Fixpoint path (rigs : list RigPositions) (samples : nat)
  : list THREE.Vector3 :=
  match rigs with
  | [] => []
  | a :: rest =>
      match rest with
      | [] => []
      | b :: _ => sample (segment a b) samples ++ path rest samples
      end
  end.

(** The Euclidean distance of two points. *)
Definition distance (a b : THREE.Vector3) : R :=
  sqrt (Rsqr (THREE.x a - THREE.x b) + Rsqr (THREE.y a - THREE.y b)
        + Rsqr (THREE.z a - THREE.z b)).

(** ** Example scenes *)

(** The store that holds exactly the collection [rigs], followed by the
    entries [stale] (what removed rigs leave behind) in each table. *)
Definition store_of (rigs stale : list RigPositions) : Store :=
  mkStore None
          (map (fun r => Some (rig_focal r)) (rigs ++ stale))
          (map (fun r => Some (rig_left r)) (rigs ++ stale))
          (map (fun r => Some (rig_right r)) (rigs ++ stale))
          0.

(** The entries that [CameraBundle] writes for a camera at [position] that
    looks at [target]: the focal point one unit ahead of the camera, both
    handles at the camera. *)
Definition lookingAt (position target : THREE.Vector3) : RigPositions :=
  mkRig (THREE.add position (THREE.normalize (THREE.sub target position)))
        position position.

(** Two rigs at [(0, 1, 2.5)] and [(2, 1, 2.5)], both looking at
    [(0, 1, 0)]. *)
Definition two_rigs : list RigPositions :=
  [lookingAt (THREE.vec3 0 1 2.5) (THREE.vec3 0 1 0);
   lookingAt (THREE.vec3 2 1 2.5) (THREE.vec3 0 1 0)].

(** Three rigs on a line, with handles one unit to each side. *)
Definition three_rigs : list RigPositions :=
  [mkRig (THREE.vec3 0 0 0) (THREE.vec3 (-1) 0 0) (THREE.vec3 1 0 0);
   mkRig (THREE.vec3 3 0 0) (THREE.vec3 2 0 0) (THREE.vec3 4 0 0);
   mkRig (THREE.vec3 6 0 0) (THREE.vec3 5 0 0) (THREE.vec3 7 0 0)].

(** What a fourth, removed rig may have left in the tables. *)
Definition leftover : list RigPositions :=
  [mkRig (THREE.vec3 9 9 9) (THREE.vec3 8 9 9) (THREE.vec3 10 9 9)].

(** ** Valid intrinsics *)

(** Intrinsics for which the perspective projection is defined and can be
    inverted. *)
Definition valid_intrinsics (fov aspect near far : R) : Prop :=
  0 < fov < 180 /\ 0 < aspect /\ 0 < near < far.

(** The corners of the clip cube on the far plane, in the order of
    [ComputeFrustumVertices]. *)
Definition ndc_corners : list THREE.Vector3 :=
  [THREE.vec3 (-1) (-1) 1; THREE.vec3 (-1) 1 1;
   THREE.vec3 1 1 1; THREE.vec3 1 (-1) 1].

(** ** Ranges of the rig's number inputs *)

(** The bounds that the schema of [useControls] gives the intrinsics. *)
Definition intrinsics_in_range (c : AuxCamera.Controls) : Prop :=
  0.01 <= AuxCamera.near c <= 1 /\
  1 <= AuxCamera.far c <= 10 /\
  0 <= AuxCamera.fov c <= 180 /\
  0.1 <= AuxCamera.aspect c <= 10.

(** The bounds of the two handle offsets. *)
Definition handles_in_range (c : AuxCamera.Controls) : Prop :=
  0.1 <= AuxCamera.leftHandle c <= 2 /\
  0.1 <= AuxCamera.rightHandle c <= 2.

(** A sequence of edits of one rig's controls. *)
Definition edits (es : list AuxCamera.Edit) (c : AuxCamera.Controls)
  : AuxCamera.Controls :=
  fold_left (fun c e => AuxCamera.set e c) es c.

(** ** The invariant of the store *)

(** The snapshot is current between two
    events, the mode indexes [modes], and the selected rig is mounted. *)
Definition store_invariant (w : World) : Prop :=
  snap w = state w /\
  (mode (state w) < List.length modes)%nat /\
  (forall id, focal (state w) = Some id -> (id < count w)%nat).

(** ** The invariant of the tables *)

(** The three tables have entries at the same indices, and at every index
    below [n]. *)
Definition tables_cover (st : Store) (n : nat) : Prop :=
  (forall i, has (focalPos st) i = has (leftHandlePos st) i) /\
  (forall i, has (rightHandlePos st) i = has (leftHandlePos st) i) /\
  (forall i, (i < n)%nat -> has (leftHandlePos st) i = true).

(** [arr[i]], with the origin for [undefined]. *)
Definition get_or_origin (arr : JSArray THREE.Vector3) (i : nat)
  : THREE.Vector3 :=
  match get arr i with
  | Some v => v
  | None => THREE.origin
  end.

(** The collection that the first [n] entries of the tables describe. *)
Definition rigs_of (st : Store) (n : nat) : list RigPositions :=
  map (fun i => mkRig (get_or_origin (focalPos st) i)
                      (get_or_origin (leftHandlePos st) i)
                      (get_or_origin (rightHandlePos st) i))
      (seq 0 n).

(** ** [ComputeSplineVertices] *)

(** The helper above [Frustum]: the buffer of one curve. *)
Definition ComputeSplineVertices (curve : THREE.CubicBezierCurve3)
    (samples : nat) : list R :=
  let curvePoints := THREE.getPoints curve samples in
  let verts := [] in
  for_range 0 samples
    (fun i verts =>
       push verts [THREE.x (nth i curvePoints THREE.origin);
                   THREE.y (nth i curvePoints THREE.origin);
                   THREE.z (nth i curvePoints THREE.origin)])
    verts.

(** The consecutive pairs of a list, in order. *)
Definition consecutive {A : Type} (l : list A) : list (A * A) :=
  combine l (tl l).

(** ** The variant of [app.jsx] whose [Spline] only collects positions *)

Module Draft.

(** Objects live in a heap and are handled by address, so that two uses of
    one [Vector3] are uses of the same cell. *)
Definition Heap : Type := list THREE.Vector3.

(** [new THREE.Vector3()]. *)
Definition alloc (h : Heap) : Heap * nat :=
  (h ++ [THREE.origin], List.length h).

Definition load (h : Heap) (a : nat) : THREE.Vector3 :=
  nth a h THREE.origin.

Definition store (h : Heap) (a : nat) (v : THREE.Vector3) : Heap :=
  firstn a h ++ v :: skipn (S a) h.

(** [Spline]: [scene i] is the world position of the focal mesh named
    [C<i>] when the scene has one ([getObjectByName] gives [undefined]
    otherwise), and [focal.getWorldPosition(worldPos)] writes it into
    the object [worldPos].  The result is the heap and the array
    [positions], an array of addresses. *)
Definition Spline (scene : nat -> option THREE.Vector3) (count : nat)
  : Heap * list nat :=
  let positions := [] in
  let (h, worldPos) := alloc [] in
  for_range 0 count
    (fun i (hp : Heap * list nat) =>
       let (h, positions) := hp in
       match scene i with
       | Some p => (store h worldPos p, push positions [worldPos])
       | None => (h, positions)
       end)
    (h, positions).

(** What [console.log(positions)] shows: the contents of the array. *)
Definition logged (scene : nat -> option THREE.Vector3) (count : nat)
  : list THREE.Vector3 :=
  let (h, positions) := Spline scene count in
  map (load h) positions.

(** The focal meshes that the loop finds, in order. *)
Definition found (scene : nat -> option THREE.Vector3) (count : nat)
  : list THREE.Vector3 :=
  flat_map (fun i => match scene i with Some p => [p] | None => [] end)
           (seq 0 count).

End Draft.

(** ** The variant of [app.jsx] whose store names the root of the rig *)

Module Rooted.

(** The names that the store holds: [C<i>] for the focal mesh of rig [i],
    [C<i>_root] for the object that carries the rig. *)
Inductive Name : Type :=
| focal_name (i : nat)
| root_name (i : nat).

(** [proxy({ focal: null, root: null, mode: 0 })]. *)
Record Store : Type := mkStore {
  focal : option Name;
  root : option Name;
  mode : nat }.

Record World : Type := mkWorld {
  state : Store;
  snap : Store;
  count : nat }.

Inductive Event : Type :=
| Click (i : nat)
| PointerMissed (ty : PointerType)
| ContextMenu (i : nat)
| SetCount (c : nat).

(** The handlers of [AuxCamera] and the effect of [CameraManager]. *)
Definition handle (ev : Event) (w : World) : World :=
  match ev with
  | Click i =>
      if (i <? count w)%nat
      then mkWorld (mkStore (Some (focal_name i)) (Some (root_name i))
                            (mode (state w)))
                   (snap w) (count w)
      else w
  | PointerMissed ty =>
      if (0 <? count w)%nat
      then match ty with
           | click => mkWorld (mkStore None None (mode (state w)))
                              (snap w) (count w)
           | _ => w
           end
      else w
  | ContextMenu i =>
      if (i <? count w)%nat
      then match focal (snap w) with
           | Some (focal_name sel) =>
               if (sel =? i)%nat
               then mkWorld
                      (mkStore (focal (state w)) (root (state w))
                         ((mode (snap w) + 1) mod List.length modes))
                      (snap w) (count w)
               else w
           | _ => w
           end
      else w
  | SetCount c =>
      let c' := sanitize_count c in
      if (c' =? count w)%nat
      then w
      else mkWorld (mkStore None None (mode (state w))) (snap w) c'
  end.

Definition step (ev : Event) (w : World) : World :=
  let w' := handle ev w in
  mkWorld (state w') (state w') (count w').

Definition mount : World :=
  mkWorld (mkStore None None 0) (mkStore None None 0) 4.

Fixpoint run (evs : list Event) (w : World) : World :=
  match evs with
  | [] => w
  | ev :: evs' => run evs' (step ev w)
  end.

(** What [Controls] renders: the target of the translate gizmo and the
    target and mode of the second gizmo. *)
Definition gizmos (w : World) : option Name * option (Name * option string) :=
  (focal (snap w),
   match root (snap w) with
   | Some r => Some (r, nth_error modes (mode (snap w)))
   | None => None
   end).

End Rooted.

(** ** The rigs of a first render *)

(** The entries that [CameraBundle] writes for rig [id]: the focal point,
    and the camera position for both handles. *)
Definition fresh_rig (count : nat) (initHeight : R) (id : nat)
  : RigPositions :=
  mkRig (initFocal count initHeight id) (initPos count initHeight id)
        (initPos count initHeight id).

(* ================================================================== *)
(** * Properties *)
(* ================================================================== *)

(** ** Loops and buffers *)

Lemma for_range_push {A : Type} (g : nat -> list A) :
  forall n lo acc,
    for_range lo n (fun i acc => push acc (g i)) acc
    = acc ++ flat_map g (seq lo n).
Proof.
  induction n as [|n IH]; intros lo acc; simpl.
  - now rewrite app_nil_r.
  - rewrite IH. unfold push. now rewrite <- app_assoc.
Qed.

Lemma for_range_ext {A : Type} (f g : nat -> A -> A) :
  forall n lo acc,
    (forall i a, (lo <= i < lo + n)%nat -> f i a = g i a) ->
    for_range lo n f acc = for_range lo n g acc.
Proof.
  induction n as [|n IH]; intros lo acc Hfg; simpl; [reflexivity|].
  rewrite Hfg by lia. apply IH. intros i a Hi. apply Hfg. lia.
Qed.

Lemma coords_app (p q : list THREE.Vector3) :
  coords (p ++ q) = coords p ++ coords q.
Proof. unfold coords. apply flat_map_app. Qed.

Lemma coords_length (p : list THREE.Vector3) :
  List.length (coords p) = (3 * List.length p)%nat.
Proof.
  unfold coords.
  rewrite (flat_map_constant_length (c := 3)); [lia | reflexivity].
Qed.

Lemma vertices_coords (p : list THREE.Vector3) : vertices (coords p) = p.
Proof.
  induction p as [|[a b c] p IH]; simpl; [reflexivity|].
  now rewrite IH.
Qed.

Lemma coords_map_flat {A : Type} (f : A -> THREE.Vector3) (l : list A) :
  flat_map (fun a => [THREE.x (f a); THREE.y (f a); THREE.z (f a)]) l
  = coords (map f l).
Proof. unfold coords. now rewrite flat_map_concat_map, flat_map_concat_map, map_map. Qed.

(** ** Sampling a curve *)

Lemma getPoints_length (c : THREE.CubicBezierCurve3) (n : nat) :
  List.length (THREE.getPoints c n) = S n.
Proof. unfold THREE.getPoints. now rewrite length_map, length_seq. Qed.

(** The index of the inner loop of [computeCurve] never leaves the array
    that [getPoints] returns. *)
Lemma getPoints_nth (c : THREE.CubicBezierCurve3) (n k : nat) :
  (k <= n)%nat ->
  nth_error (THREE.getPoints c n) k
  = Some (THREE.getPoint c (INR k / INR n)).
Proof.
  intros Hk. unfold THREE.getPoints.
  rewrite nth_error_map, nth_error_seq.
  assert (Hlt : (k <? S n)%nat = true) by (apply Nat.ltb_lt; lia).
  now rewrite Hlt.
Qed.

Lemma firstn_getPoints (c : THREE.CubicBezierCurve3) (n : nat) :
  map (fun k => nth k (THREE.getPoints c n) THREE.origin) (seq 0 n)
  = sample c n.
Proof.
  unfold sample. apply map_ext_in. intros k Hk.
  apply in_seq in Hk. apply nth_error_nth. apply getPoints_nth. lia.
Qed.

Lemma sample_length (c : THREE.CubicBezierCurve3) (n : nat) :
  List.length (sample c n) = n.
Proof. unfold sample. now rewrite length_map, length_seq. Qed.

Lemma sample_nth (c : THREE.CubicBezierCurve3) (n k : nat) :
  (k < n)%nat ->
  nth k (sample c n) THREE.origin = THREE.getPoint c (INR k / INR n).
Proof.
  intros Hk. apply nth_error_nth. unfold sample.
  rewrite nth_error_map, nth_error_seq.
  assert (Hlt : (k <? n)%nat = true) by (apply Nat.ltb_lt; lia).
  now rewrite Hlt.
Qed.

(** A curve starts at its first control point. *)
Lemma getPoint_0 (c : THREE.CubicBezierCurve3) :
  THREE.getPoint c 0 = THREE.v0 c.
Proof.
  destruct c as [[x0 y0 z0] [x1 y1 z1] [x2 y2 z2] [x3 y3 z3]].
  unfold THREE.getPoint, THREE.CubicBezier, THREE.CubicBezierP0,
    THREE.CubicBezierP1, THREE.CubicBezierP2, THREE.CubicBezierP3; simpl.
  f_equal; ring.
Qed.

(** A curve ends at its last control point. *)
Lemma getPoint_1 (c : THREE.CubicBezierCurve3) :
  THREE.getPoint c 1 = THREE.v3 c.
Proof.
  destruct c as [[x0 y0 z0] [x1 y1 z1] [x2 y2 z2] [x3 y3 z3]].
  unfold THREE.getPoint, THREE.CubicBezier, THREE.CubicBezierP0,
    THREE.CubicBezierP1, THREE.CubicBezierP2, THREE.CubicBezierP3; simpl.
  f_equal; ring.
Qed.

(** ** [computeCurve] as a concatenation of segments *)

(** The inner loop appends the samples of the curve. *)
Lemma inner_loop (c : THREE.CubicBezierCurve3) (samples : nat)
    (verts : list R) :
  for_range 0 samples
    (fun i verts =>
       let p := nth i (THREE.getPoints c samples) THREE.origin in
       push verts [THREE.x p; THREE.y p; THREE.z p])
    verts
  = verts ++ coords (sample c samples).
Proof.
  cbv zeta.
  rewrite (for_range_push
             (fun i => [THREE.x (nth i (THREE.getPoints c samples) THREE.origin);
                        THREE.y (nth i (THREE.getPoints c samples) THREE.origin);
                        THREE.z (nth i (THREE.getPoints c samples) THREE.origin)])).
  now rewrite coords_map_flat, firstn_getPoints.
Qed.

Lemma computeCurve_flat_map (st : Store) (count samples : nat) :
  computeCurve st count samples
  = flat_map (fun i => coords (sample (curve_at st count i) samples))
      (seq 0 (List.length (slice0 (focalPos st) count) - 1)).
Proof.
  unfold computeCurve. cbv zeta.
  rewrite (for_range_ext _
             (fun i verts =>
                push verts (coords (sample (curve_at st count i) samples)))).
  - now rewrite for_range_push.
  - intros i a _. now rewrite inner_loop.
Qed.

Lemma get_slice0 {A : Type} (arr : JSArray A) (n i : nat) :
  (i < n)%nat -> get (slice0 arr n) i = get arr i.
Proof.
  intros Hi. unfold get, slice0. rewrite nth_error_firstn.
  assert (Hlt : (i <? n)%nat = true) by now apply Nat.ltb_lt.
  now rewrite Hlt.
Qed.

Lemma get_Some_lt {A : Type} (arr : JSArray A) (i : nat) (v : A) :
  get arr i = Some v -> (i < List.length arr)%nat.
Proof.
  unfold get. intros H. apply nth_error_Some.
  destruct (nth_error arr i); congruence.
Qed.

Lemma holds_focal_length (st : Store) (rigs : list RigPositions) :
  holds st rigs -> (List.length rigs <= List.length (focalPos st))%nat.
Proof.
  intros H. destruct rigs as [|r0 rigs'] eqn:E; [simpl; lia|]. rewrite <- E in *.
  assert (Hlast : (List.length rigs - 1 < List.length rigs)%nat)
    by (subst rigs; simpl; lia).
  destruct (nth_error rigs (List.length rigs - 1)) as [rig|] eqn:Hn.
  - destruct (H _ _ Hn) as [Hf _]. apply get_Some_lt in Hf. lia.
  - apply nth_error_None in Hn. lia.
Qed.

Lemma curve_at_segment (st : Store) (rigs : list RigPositions) (i : nat)
    (a b : RigPositions) :
  holds st rigs ->
  nth_error rigs i = Some a ->
  nth_error rigs (S i) = Some b ->
  curve_at st (List.length rigs) i = segment a b.
Proof.
  intros H Ha Hb.
  assert (Hi : (S i < List.length rigs)%nat)
    by (apply nth_error_Some; congruence).
  destruct (H _ _ Ha) as (Hfa & _ & Hra).
  destruct (H _ _ Hb) as (Hfb & Hlb & _).
  unfold curve_at. rewrite !get_slice0 by lia.
  replace (i + 1)%nat with (S i) by lia.
  now rewrite Hfa, Hra, Hlb, Hfb.
Qed.

(** Stitching by index, as the loop does, is stitching along the list. *)
Lemma flat_map_path (samples : nat) (g : nat -> list R) :
  forall (rigs : list RigPositions) (k : nat),
    (forall i a b,
        nth_error rigs i = Some a -> nth_error rigs (S i) = Some b ->
        g (k + i)%nat = coords (sample (segment a b) samples)) ->
    flat_map g (seq k (List.length rigs - 1)) = coords (path rigs samples).
Proof.
  induction rigs as [|a rest IH]; intros k Hg; [reflexivity|].
  destruct rest as [|b rest']; [reflexivity|].
  replace (List.length (a :: b :: rest') - 1)%nat
    with (S (List.length (b :: rest') - 1)) by (simpl; lia).
  cbn [seq flat_map].
  change (path (a :: b :: rest') samples)
    with (sample (segment a b) samples ++ path (b :: rest') samples).
  rewrite coords_app. f_equal.
  - rewrite <- (Hg 0%nat a b); [f_equal; lia | reflexivity | reflexivity].
  - apply IH. intros i a' b' Ha' Hb'.
    replace (S k + i)%nat with (k + S i)%nat by lia.
    now apply Hg.
Qed.

Lemma path_length (samples : nat) :
  forall rigs : list RigPositions,
    List.length (path rigs samples)
    = ((List.length rigs - 1) * samples)%nat.
Proof.
  induction rigs as [|a rest IH]; [reflexivity|].
  destruct rest as [|b rest']; [reflexivity|].
  change (path (a :: b :: rest') samples)
    with (sample (segment a b) samples ++ path (b :: rest') samples).
  rewrite length_app, sample_length, IH. simpl. lia.
Qed.

Lemma computeCurve_path (st : Store) (rigs : list RigPositions)
    (samples : nat) :
  holds st rigs ->
  computeCurve st (List.length rigs) samples = coords (path rigs samples).
Proof.
  intros H. rewrite computeCurve_flat_map.
  unfold slice0 at 1. rewrite firstn_length_le by now apply holds_focal_length.
  apply flat_map_path. intros i a b Ha Hb. simpl.
  now rewrite (curve_at_segment st rigs i a b).
Qed.

(** With fewer than two rigs the loop of [computeCurve] has no iteration. *)
Lemma computeCurve_short (st : Store) (count samples : nat) :
  (count < 2)%nat -> computeCurve st count samples = [].
Proof.
  intros Hc. rewrite computeCurve_flat_map.
  assert (Hlen : (List.length (slice0 (focalPos st) count) - 1 = 0)%nat).
  { unfold slice0. pose proof (firstn_le_length count (focalPos st)). lia. }
  now rewrite Hlen.
Qed.

(** C1. For an ordered collection of [n] rigs held by the store, the spline
    has no path when [n < 2] (the component renders nothing, and the
    buffer of [computeCurve] is empty); when [n >= 2] the buffer holds
    exactly [(n - 1) * samples] points, which are the samples of the cubic
    Bezier segments [focal_i, rightHandle_i, leftHandle_(i+1), focal_(i+1)]
    of the consecutive pairs, concatenated in rig order. *)
Theorem buildPath_segments (st : Store) (rigs : list RigPositions)
    (samples : nat) :
  holds st rigs ->
  let n := List.length rigs in
  ((n < 2)%nat ->
     Spline st n samples = None /\ computeCurve st n samples = []) /\
  ((2 <= n)%nat ->
     Spline st n samples = Some (coords (path rigs samples)) /\
     vertices (computeCurve st n samples) = path rigs samples /\
     List.length (vertices (computeCurve st n samples))
     = ((n - 1) * samples)%nat).
Proof.
  intros H n. split; intros Hn.
  - split; [|now apply computeCurve_short].
    unfold Spline. destruct (Nat.ltb_spec 1 n); [lia | reflexivity].
  - unfold Spline. destruct (Nat.ltb_spec 1 n); [|lia].
    unfold n. rewrite (computeCurve_path st rigs samples H).
    rewrite vertices_coords. repeat split. apply path_length.
Qed.

Lemma holds_store_of (rigs stale : list RigPositions) :
  holds (store_of rigs stale) rigs.
Proof.
  intros i rig Hi. unfold store_of, get; simpl.
  rewrite !nth_error_map, nth_error_app1
    by (apply nth_error_Some; congruence).
  now rewrite Hi.
Qed.

Lemma buildPath_segments_witness :
  Spline (store_of three_rigs leftover) 3 2
  = Some (coords (path three_rigs 2)) /\
  List.length (vertices (computeCurve (store_of three_rigs leftover) 3 2))
  = 4%nat.
Proof.
  destruct (buildPath_segments (store_of three_rigs leftover) three_rigs 2
              (holds_store_of three_rigs leftover)) as [_ H].
  destruct (H ltac:(simpl; lia)) as (H1 & _ & H3).
  split; [exact H1 | exact H3].
Defined.

(** ** The path reads the first [count] entries only *)

(** C10. Two stores that agree on the first [n] entries of the focal, the
    left-handle and the right-handle tables give the same vertex buffer for
    [n] rigs, whatever the later entries are. *)
Theorem computeCurve_first_entries (s1 s2 : Store) (n samples : nat) :
  firstn n (focalPos s1) = firstn n (focalPos s2) ->
  firstn n (leftHandlePos s1) = firstn n (leftHandlePos s2) ->
  firstn n (rightHandlePos s1) = firstn n (rightHandlePos s2) ->
  computeCurve s1 n samples = computeCurve s2 n samples /\
  Spline s1 n samples = Spline s2 n samples.
Proof.
  intros Hf Hl Hr.
  assert (H : computeCurve s1 n samples = computeCurve s2 n samples).
  { rewrite !computeCurve_flat_map. unfold curve_at, slice0.
    now rewrite Hf, Hl, Hr. }
  split; [exact H|]. unfold Spline. now rewrite H.
Qed.

Lemma computeCurve_first_entries_witness :
  store_of three_rigs leftover <> store_of three_rigs [] /\
  computeCurve (store_of three_rigs leftover) 3 20
  = computeCurve (store_of three_rigs []) 3 20.
Proof.
  split.
  - intros H. apply (f_equal (fun s => List.length (focalPos s))) in H.
    simpl in H. discriminate H.
  - apply (computeCurve_first_entries
             (store_of three_rigs leftover) (store_of three_rigs []) 3 20);
      reflexivity.
Defined.

(** Entries past the rig count never reach the buffer. *)
Corollary computeCurve_stale (rigs stale : list RigPositions)
    (samples : nat) :
  computeCurve (store_of rigs stale) (List.length rigs) samples
  = computeCurve (store_of rigs []) (List.length rigs) samples.
Proof.
  rewrite !(computeCurve_path _ rigs) by apply holds_store_of. reflexivity.
Qed.

(** ** The two-rig scenario *)

Lemma last_nth {A : Type} (l : list A) (d : A) :
  last l d = nth (List.length l - 1) l d.
Proof.
  induction l as [|a l IH]; [reflexivity|].
  destruct l as [|b l']; [reflexivity|].
  change (last (a :: b :: l') d) with (last (b :: l') d). rewrite IH.
  simpl. now rewrite Nat.sub_0_r.
Qed.

Lemma path_two (a b : RigPositions) (samples : nat) :
  path [a; b] samples = sample (segment a b) samples.
Proof. simpl. now rewrite app_nil_r. Qed.

(** C6, as the code has it. For two rigs and [samples = 10] the buffer
    holds exactly [10] points, the samples of the single segment at the
    parameters [k / 10] for [k = 0, ..., 9]: the first one is the focal
    point of rig 0, the last one is the point of the curve at [9 / 10]. *)
Theorem two_rig_path (st : Store) (a b : RigPositions) :
  holds st [a; b] ->
  let pts := vertices (computeCurve st 2 10) in
  List.length pts = 10%nat /\
  nth 0 pts THREE.origin = rig_focal a /\
  (forall k, (k < 10)%nat ->
     nth k pts THREE.origin = THREE.getPoint (segment a b) (INR k / 10)) /\
  last pts THREE.origin = THREE.getPoint (segment a b) (9 / 10).
Proof.
  intros H pts.
  assert (Hpts : pts = sample (segment a b) 10).
  { unfold pts.
    pose proof (computeCurve_path st [a; b] 10 H) as Hc.
    change (List.length [a; b]) with 2%nat in Hc.
    rewrite Hc, vertices_coords. apply path_two. }
  assert (Hk : forall k, (k < 10)%nat ->
             nth k pts THREE.origin
             = THREE.getPoint (segment a b) (INR k / 10)).
  { intros k Hlt. rewrite Hpts, sample_nth by exact Hlt.
    f_equal. f_equal. simpl. lra. }
  repeat split.
  - now rewrite Hpts, sample_length.
  - rewrite Hk by lia. simpl INR.
    replace (0 / 10) with 0 by lra. apply getPoint_0.
  - exact Hk.
  - rewrite last_nth. rewrite Hpts at 1. rewrite sample_length.
    rewrite Hk by lia. f_equal. simpl. lra.
Qed.

Lemma two_rig_path_witness :
  List.length (vertices (computeCurve (store_of two_rigs []) 2 10)) = 10%nat.
Proof.
  exact (proj1 (two_rig_path (store_of two_rigs [])
                  (lookingAt (THREE.vec3 0 1 2.5) (THREE.vec3 0 1 0))
                  (lookingAt (THREE.vec3 2 1 2.5) (THREE.vec3 0 1 0))
                  (holds_store_of two_rigs []))).
Defined.

Lemma two_rigs_buffer :
  vertices (computeCurve (store_of two_rigs []) 2 10)
  = sample (segment (lookingAt (THREE.vec3 0 1 2.5) (THREE.vec3 0 1 0))
                    (lookingAt (THREE.vec3 2 1 2.5) (THREE.vec3 0 1 0))) 10.
Proof.
  pose proof (computeCurve_path (store_of two_rigs []) two_rigs 10
                (holds_store_of two_rigs [])) as Hc.
  change (List.length two_rigs) with 2%nat in Hc.
  rewrite Hc, vertices_coords. apply path_two.
Qed.

(** The scenario as the specification words it fails: the buffer has 10
    points, not 9. *)
Lemma two_rigs_not_nine_points :
  ~ (let pts := vertices (computeCurve (store_of two_rigs []) 2 10) in
     List.length pts = 9%nat /\
     nth 0 pts THREE.origin = rig_focal (nth 0 two_rigs (mkRig THREE.origin THREE.origin THREE.origin)) /\
     last pts THREE.origin = rig_focal (nth 1 two_rigs (mkRig THREE.origin THREE.origin THREE.origin))).
Proof.
  cbv zeta. rewrite two_rigs_buffer, sample_length. intros [H _].
  discriminate H.
Qed.

(** In the scenario the last sample is not the focal point of rig 1: the
    curve reaches it at the parameter [1], which is not sampled. *)
Lemma two_rigs_last_sample :
  last (vertices (computeCurve (store_of two_rigs []) 2 10)) THREE.origin
  <> rig_focal (lookingAt (THREE.vec3 2 1 2.5) (THREE.vec3 0 1 0)).
Proof.
  rewrite two_rigs_buffer, last_nth, sample_length, sample_nth by lia.
  intros H. apply (f_equal THREE.x) in H.
  unfold segment, lookingAt, THREE.getPoint, THREE.CubicBezier,
    THREE.CubicBezierP0, THREE.CubicBezierP1, THREE.CubicBezierP2,
    THREE.CubicBezierP3, THREE.add, THREE.normalize, THREE.divideScalar,
    THREE.sub in H.
  cbn [THREE.x THREE.y THREE.z THREE.v0 THREE.v1 THREE.v2 THREE.v3
       rig_focal rig_left rig_right INR Nat.sub List.length] in H.
  set (s := THREE.length (THREE.vec3 (0 - 2) (1 - 1) (0 - 2.5))) in H.
  assert (Hs : s * s = 10.25).
  { unfold s, THREE.length. cbn [THREE.x THREE.y THREE.z].
    rewrite sqrt_sqrt; lra. }
  destruct (Req_dec_T s 0) as [Hz|Hnz].
  - rewrite Hz in Hs. lra.
  - set (u := 1 / s) in H.
    assert (Hu : s * u = 1) by (unfold u; field; exact Hnz).
    replace (1 + 1 + 1 + 1 + 1 + 1 + 1 + 1 + 1) with 9 in H by lra.
    replace (1 + 1 + 1 + 1 + 1 + 1 + 1 + 1 + 1 + 1) with 10 in H by lra.
    nra.
Qed.

(** ** The frustum *)

Lemma frustum_vertices_unprojected (fov aspect near far : R) :
  List.length (ComputeFrustumVertices fov aspect near far) = 15%nat /\
  vertices (ComputeFrustumVertices fov aspect near far)
  = THREE.vec3 0 0 0
    :: map (fun c =>
              THREE.applyMatrix4 c
                (THREE.projectionMatrixInverse
                   (THREE.newPerspectiveCamera fov aspect near far)))
         ndc_corners.
Proof. split; reflexivity. Qed.

Lemma determinant_makePerspective (left right top bottom near far : R) :
  THREE.determinant (THREE.makePerspective left right top bottom near far)
  = (2 * near / (right - left)) * (2 * near / (top - bottom))
    * (- 2 * far * near / (far - near)).
Proof.
  unfold THREE.determinant, THREE.makePerspective, THREE.cof11, THREE.cof21,
    THREE.cof31, THREE.cof41, THREE.det3; simpl.
  unfold Rdiv. ring.
Qed.


Ltac unfold_cofactors :=
  unfold THREE.determinant,
    THREE.cof11, THREE.cof12, THREE.cof13, THREE.cof14,
    THREE.cof21, THREE.cof22, THREE.cof23, THREE.cof24,
    THREE.cof31, THREE.cof32, THREE.cof33, THREE.cof34,
    THREE.cof41, THREE.cof42, THREE.cof43, THREE.cof44, THREE.det3.

(** Laplace expansion: a row against its own cofactors gives the
    determinant, against the cofactors of another row it gives [0]. *)
Lemma cofactor_expansion (m : THREE.Matrix4) :
  (THREE.n11 m * THREE.cof11 m + THREE.n12 m * THREE.cof12 m + THREE.n13 m * THREE.cof13 m + THREE.n14 m * THREE.cof14 m
   = THREE.determinant m) /\
  (THREE.n11 m * THREE.cof21 m + THREE.n12 m * THREE.cof22 m + THREE.n13 m * THREE.cof23 m + THREE.n14 m * THREE.cof24 m
   = 0) /\
  (THREE.n11 m * THREE.cof31 m + THREE.n12 m * THREE.cof32 m + THREE.n13 m * THREE.cof33 m + THREE.n14 m * THREE.cof34 m
   = 0) /\
  (THREE.n11 m * THREE.cof41 m + THREE.n12 m * THREE.cof42 m + THREE.n13 m * THREE.cof43 m + THREE.n14 m * THREE.cof44 m
   = 0) /\
  (THREE.n21 m * THREE.cof11 m + THREE.n22 m * THREE.cof12 m + THREE.n23 m * THREE.cof13 m + THREE.n24 m * THREE.cof14 m
   = 0) /\
  (THREE.n21 m * THREE.cof21 m + THREE.n22 m * THREE.cof22 m + THREE.n23 m * THREE.cof23 m + THREE.n24 m * THREE.cof24 m
   = THREE.determinant m) /\
  (THREE.n21 m * THREE.cof31 m + THREE.n22 m * THREE.cof32 m + THREE.n23 m * THREE.cof33 m + THREE.n24 m * THREE.cof34 m
   = 0) /\
  (THREE.n21 m * THREE.cof41 m + THREE.n22 m * THREE.cof42 m + THREE.n23 m * THREE.cof43 m + THREE.n24 m * THREE.cof44 m
   = 0) /\
  (THREE.n31 m * THREE.cof11 m + THREE.n32 m * THREE.cof12 m + THREE.n33 m * THREE.cof13 m + THREE.n34 m * THREE.cof14 m
   = 0) /\
  (THREE.n31 m * THREE.cof21 m + THREE.n32 m * THREE.cof22 m + THREE.n33 m * THREE.cof23 m + THREE.n34 m * THREE.cof24 m
   = 0) /\
  (THREE.n31 m * THREE.cof31 m + THREE.n32 m * THREE.cof32 m + THREE.n33 m * THREE.cof33 m + THREE.n34 m * THREE.cof34 m
   = THREE.determinant m) /\
  (THREE.n31 m * THREE.cof41 m + THREE.n32 m * THREE.cof42 m + THREE.n33 m * THREE.cof43 m + THREE.n34 m * THREE.cof44 m
   = 0) /\
  (THREE.n41 m * THREE.cof11 m + THREE.n42 m * THREE.cof12 m + THREE.n43 m * THREE.cof13 m + THREE.n44 m * THREE.cof14 m
   = 0) /\
  (THREE.n41 m * THREE.cof21 m + THREE.n42 m * THREE.cof22 m + THREE.n43 m * THREE.cof23 m + THREE.n44 m * THREE.cof24 m
   = 0) /\
  (THREE.n41 m * THREE.cof31 m + THREE.n42 m * THREE.cof32 m + THREE.n43 m * THREE.cof33 m + THREE.n44 m * THREE.cof34 m
   = 0) /\
  (THREE.n41 m * THREE.cof41 m + THREE.n42 m * THREE.cof42 m + THREE.n43 m * THREE.cof43 m + THREE.n44 m * THREE.cof44 m
   = THREE.determinant m).
Proof. unfold_cofactors. repeat apply conj; ring. Qed.

Lemma scaled_dot (a1 a2 a3 a4 c1 c2 c3 c4 k : R) :
  a1 * (c1 * k) + a2 * (c2 * k) + a3 * (c3 * k) + a4 * (c4 * k)
  = (a1 * c1 + a2 * c2 + a3 * c3 + a4 * c4) * k.
Proof. ring. Qed.

(** [invert] gives the inverse of a matrix whose determinant is not [0]. *)
Lemma invert_correct (m : THREE.Matrix4) :
  THREE.determinant m <> 0 ->
  THREE.multiply m (THREE.invert m) = THREE.identity.
Proof.
  intros Hdet. unfold THREE.invert.
  destruct (Req_dec_T (THREE.determinant m) 0) as [Hz|_]; [contradiction|].
  destruct (cofactor_expansion m) as (H11 & H12 & H13 & H14 & H21 & H22 & H23 & H24 & H31 & H32 & H33 & H34 & H41 & H42 & H43 & H44).
  unfold THREE.multiply, THREE.identity.
  cbn [THREE.n11 THREE.n12 THREE.n13 THREE.n14 THREE.n21 THREE.n22 THREE.n23
       THREE.n24 THREE.n31 THREE.n32 THREE.n33 THREE.n34 THREE.n41 THREE.n42
       THREE.n43 THREE.n44].
  rewrite !scaled_dot, H11, H12, H13, H14, H21, H22, H23, H24, H31, H32, H33, H34, H41, H42, H43, H44.
  assert (Hone : THREE.determinant m * (1 / THREE.determinant m) = 1)
    by (field; exact Hdet).
  rewrite Hone, !Rmult_0_l. reflexivity.
Qed.

(** Laplace expansion along the columns. *)
Lemma cofactor_expansion_columns (m : THREE.Matrix4) :
  (THREE.cof11 m * THREE.n11 m + THREE.cof21 m * THREE.n21 m + THREE.cof31 m * THREE.n31 m + THREE.cof41 m * THREE.n41 m
   = THREE.determinant m) /\
  (THREE.cof11 m * THREE.n12 m + THREE.cof21 m * THREE.n22 m + THREE.cof31 m * THREE.n32 m + THREE.cof41 m * THREE.n42 m
   = 0) /\
  (THREE.cof11 m * THREE.n13 m + THREE.cof21 m * THREE.n23 m + THREE.cof31 m * THREE.n33 m + THREE.cof41 m * THREE.n43 m
   = 0) /\
  (THREE.cof11 m * THREE.n14 m + THREE.cof21 m * THREE.n24 m + THREE.cof31 m * THREE.n34 m + THREE.cof41 m * THREE.n44 m
   = 0) /\
  (THREE.cof12 m * THREE.n11 m + THREE.cof22 m * THREE.n21 m + THREE.cof32 m * THREE.n31 m + THREE.cof42 m * THREE.n41 m
   = 0) /\
  (THREE.cof12 m * THREE.n12 m + THREE.cof22 m * THREE.n22 m + THREE.cof32 m * THREE.n32 m + THREE.cof42 m * THREE.n42 m
   = THREE.determinant m) /\
  (THREE.cof12 m * THREE.n13 m + THREE.cof22 m * THREE.n23 m + THREE.cof32 m * THREE.n33 m + THREE.cof42 m * THREE.n43 m
   = 0) /\
  (THREE.cof12 m * THREE.n14 m + THREE.cof22 m * THREE.n24 m + THREE.cof32 m * THREE.n34 m + THREE.cof42 m * THREE.n44 m
   = 0) /\
  (THREE.cof13 m * THREE.n11 m + THREE.cof23 m * THREE.n21 m + THREE.cof33 m * THREE.n31 m + THREE.cof43 m * THREE.n41 m
   = 0) /\
  (THREE.cof13 m * THREE.n12 m + THREE.cof23 m * THREE.n22 m + THREE.cof33 m * THREE.n32 m + THREE.cof43 m * THREE.n42 m
   = 0) /\
  (THREE.cof13 m * THREE.n13 m + THREE.cof23 m * THREE.n23 m + THREE.cof33 m * THREE.n33 m + THREE.cof43 m * THREE.n43 m
   = THREE.determinant m) /\
  (THREE.cof13 m * THREE.n14 m + THREE.cof23 m * THREE.n24 m + THREE.cof33 m * THREE.n34 m + THREE.cof43 m * THREE.n44 m
   = 0) /\
  (THREE.cof14 m * THREE.n11 m + THREE.cof24 m * THREE.n21 m + THREE.cof34 m * THREE.n31 m + THREE.cof44 m * THREE.n41 m
   = 0) /\
  (THREE.cof14 m * THREE.n12 m + THREE.cof24 m * THREE.n22 m + THREE.cof34 m * THREE.n32 m + THREE.cof44 m * THREE.n42 m
   = 0) /\
  (THREE.cof14 m * THREE.n13 m + THREE.cof24 m * THREE.n23 m + THREE.cof34 m * THREE.n33 m + THREE.cof44 m * THREE.n43 m
   = 0) /\
  (THREE.cof14 m * THREE.n14 m + THREE.cof24 m * THREE.n24 m + THREE.cof34 m * THREE.n34 m + THREE.cof44 m * THREE.n44 m
   = THREE.determinant m).
Proof. unfold_cofactors. repeat apply conj; ring. Qed.

Lemma scaled_dot_left (a1 a2 a3 a4 c1 c2 c3 c4 k : R) :
  c1 * k * a1 + c2 * k * a2 + c3 * k * a3 + c4 * k * a4
  = (c1 * a1 + c2 * a2 + c3 * a3 + c4 * a4) * k.
Proof. ring. Qed.

(** [invert] gives a left inverse as well. *)
Lemma invert_correct_left (m : THREE.Matrix4) :
  THREE.determinant m <> 0 ->
  THREE.multiply (THREE.invert m) m = THREE.identity.
Proof.
  intros Hdet. unfold THREE.invert.
  destruct (Req_dec_T (THREE.determinant m) 0) as [Hz|_]; [contradiction|].
  destruct (cofactor_expansion_columns m) as (H11 & H12 & H13 & H14 & H21 & H22 & H23 & H24 & H31 & H32 & H33 & H34 & H41 & H42 & H43 & H44).
  unfold THREE.multiply, THREE.identity.
  cbn [THREE.n11 THREE.n12 THREE.n13 THREE.n14 THREE.n21 THREE.n22 THREE.n23
       THREE.n24 THREE.n31 THREE.n32 THREE.n33 THREE.n34 THREE.n41 THREE.n42
       THREE.n43 THREE.n44].
  rewrite !scaled_dot_left, H11, H12, H13, H14, H21, H22, H23, H24, H31, H32, H33, H34, H41, H42, H43, H44.
  assert (Hone : THREE.determinant m * (1 / THREE.determinant m) = 1)
    by (field; exact Hdet).
  rewrite Hone, !Rmult_0_l. reflexivity.
Qed.

Lemma vec3_eq (a b c a' b' c' : R) :
  a = a' -> b = b' -> c = c' -> THREE.vec3 a b c = THREE.vec3 a' b' c'.
Proof. intros -> -> ->. reflexivity. Qed.

(** The tangent of half the field of view. *)
Lemma half_fov_tan_pos (fov : R) :
  0 < fov < 180 -> 0 < tan (THREE.DEG2RAD * (1 / 2) * fov).
Proof.
  intros [H0 H180]. unfold THREE.DEG2RAD. pose proof PI_RGT_0 as Hpi.
  apply tan_gt_0.
  - apply Rmult_lt_0_compat; [|exact H0].
    apply Rmult_lt_0_compat; lra.
  - replace (PI / 180 * (1 / 2) * fov) with (PI / 2 * (fov / 180)) by field.
    rewrite <- (Rmult_1_r (PI / 2)) at 2.
    apply Rmult_lt_compat_l; lra.
Qed.

Lemma projection_determinant (fov aspect near far : R) :
  valid_intrinsics fov aspect near far ->
  THREE.determinant
    (THREE.projectionMatrix (THREE.newPerspectiveCamera fov aspect near far))
  <> 0.
Proof.
  intros (Hfov & Hasp & Hnear & Hfar).
  pose proof (half_fov_tan_pos fov Hfov) as Ht.
  unfold THREE.projectionMatrix. rewrite determinant_makePerspective.
  cbn [THREE.fov THREE.aspect THREE.near THREE.far].
  set (t := tan (THREE.DEG2RAD * (1 / 2) * fov)) in *.
  assert (Hw : 0 < aspect * (2 * (near * t))).
  { apply Rmult_lt_0_compat; [exact Hasp|].
    apply Rmult_lt_0_compat; [lra|]. now apply Rmult_lt_0_compat. }
  assert (Hh : 0 < 2 * (near * t)).
  { apply Rmult_lt_0_compat; [lra|]. now apply Rmult_lt_0_compat. }
  replace (- (1 / 2) * (aspect * (2 * (near * t)))
           + aspect * (2 * (near * t))
           - - (1 / 2) * (aspect * (2 * (near * t))))
    with (aspect * (2 * (near * t))) by field.
  replace (near * t - (near * t - 2 * (near * t)))
    with (2 * (near * t)) by ring.
  assert (Hfn : 0 < far * near) by (apply Rmult_lt_0_compat; lra).
  apply Rmult_integral_contrapositive_currified;
    [apply Rmult_integral_contrapositive_currified|].
  - apply Rgt_not_eq. apply Rdiv_lt_0_compat; lra.
  - apply Rgt_not_eq. apply Rdiv_lt_0_compat; lra.
  - apply Rlt_not_eq.
    replace (- 2 * far * near / (far - near))
      with (- (2 * (far * near) / (far - near))) by (field; lra).
    apply Ropp_lt_gt_0_contravar. apply Rdiv_lt_0_compat; lra.
Qed.

(** For valid intrinsics the matrix that [ComputeFrustumVertices] applies
    is the inverse of the perspective projection of the camera. *)
Lemma projectionMatrixInverse_correct (fov aspect near far : R) :
  valid_intrinsics fov aspect near far ->
  let camera := THREE.newPerspectiveCamera fov aspect near far in
  THREE.multiply (THREE.projectionMatrix camera)
                 (THREE.projectionMatrixInverse camera)
  = THREE.identity.
Proof.
  intros Hv camera. unfold THREE.projectionMatrixInverse.
  apply invert_correct. now apply projection_determinant.
Qed.

(** For valid intrinsics a corner [(X, Y, 1)] of the clip cube goes to the
    far plane [z = - far], at the half-extents that the field of view and
    the aspect ratio give. *)
Lemma unproject_far_corner (fov aspect near far X Y : R) :
  valid_intrinsics fov aspect near far ->
  let t := tan (THREE.DEG2RAD * (1 / 2) * fov) in
  THREE.applyMatrix4 (THREE.vec3 X Y 1)
    (THREE.projectionMatrixInverse
       (THREE.newPerspectiveCamera fov aspect near far))
  = THREE.vec3 (X * (far * aspect * t)) (Y * (far * t)) (- far).
Proof.
  intros Hv t.
  pose proof (projection_determinant fov aspect near far Hv) as Hdet.
  destruct Hv as (Hfov & Hasp & Hnear & Hfar).
  pose proof (half_fov_tan_pos fov Hfov) as Ht. fold t in Ht.
  unfold THREE.projectionMatrixInverse, THREE.invert.
  destruct (Req_dec_T _ 0) as [Hz|_]; [contradiction|].
  clear Hdet.
  unfold THREE.applyMatrix4.
  cbn [THREE.n11 THREE.n12 THREE.n13 THREE.n14 THREE.n21 THREE.n22 THREE.n23
       THREE.n24 THREE.n31 THREE.n32 THREE.n33 THREE.n34 THREE.n41 THREE.n42
       THREE.n43 THREE.n44 THREE.x THREE.y THREE.z].
  unfold_cofactors.
  unfold THREE.projectionMatrix, THREE.makePerspective.
  cbn [THREE.n11 THREE.n12 THREE.n13 THREE.n14 THREE.n21 THREE.n22 THREE.n23
       THREE.n24 THREE.n31 THREE.n32 THREE.n33 THREE.n34 THREE.n41 THREE.n42
       THREE.n43 THREE.n44 THREE.fov THREE.aspect THREE.near THREE.far].
  fold t.
  assert (Hnt : 0 < near * t) by (apply Rmult_lt_0_compat; lra).
  assert (Hant : 0 < aspect * (near * t))
    by (apply Rmult_lt_0_compat; lra).
  assert (Hn3 : 0 < near * near * near)
    by (repeat apply Rmult_lt_0_compat; lra).
  apply vec3_eq; field; repeat apply conj; lra.
Qed.

(** For valid intrinsics the point of the far plane that a corner of the
    clip cube comes from is projected back onto that corner. *)
Lemma project_far_corner (fov aspect near far X Y : R) :
  valid_intrinsics fov aspect near far ->
  let t := tan (THREE.DEG2RAD * (1 / 2) * fov) in
  THREE.applyMatrix4
    (THREE.vec3 (X * (far * aspect * t)) (Y * (far * t)) (- far))
    (THREE.projectionMatrix (THREE.newPerspectiveCamera fov aspect near far))
  = THREE.vec3 X Y 1.
Proof.
  intros (Hfov & Hasp & Hnear & Hfar) t.
  pose proof (half_fov_tan_pos fov Hfov) as Ht. fold t in Ht.
  unfold THREE.applyMatrix4, THREE.projectionMatrix, THREE.makePerspective.
  cbn [THREE.n11 THREE.n12 THREE.n13 THREE.n14 THREE.n21 THREE.n22 THREE.n23
       THREE.n24 THREE.n31 THREE.n32 THREE.n33 THREE.n34 THREE.n41 THREE.n42
       THREE.n43 THREE.n44 THREE.x THREE.y THREE.z
       THREE.fov THREE.aspect THREE.near THREE.far].
  fold t.
  assert (Hnt : 0 < near * t) by (apply Rmult_lt_0_compat; lra).
  assert (Hant : 0 < aspect * (near * t))
    by (apply Rmult_lt_0_compat; lra).
  apply vec3_eq; field; repeat apply conj; lra.
Qed.

(** C2. For every valid tuple of intrinsics the frustum builder returns
    5 vertices (15 numbers) and 18 indices, every index pointing at one of
    the five vertices; the first vertex, the apex, is the origin, and the
    other four are the images of the corners [(-1,-1,1)], [(-1,1,1)],
    [(1,1,1)], [(1,-1,1)] of the clip cube under the matrix [projInv] of
    the camera built from the intrinsics, which is the inverse of the
    perspective projection of that camera, on both sides. *)
Theorem frustum_wireframe (fov aspect near far : R) :
  valid_intrinsics fov aspect near far ->
  let camera := THREE.newPerspectiveCamera fov aspect near far in
  let projInv := THREE.projectionMatrixInverse camera in
  let verts := vertices (fst (Frustum fov aspect near far)) in
  let indices := snd (Frustum fov aspect near far) in
  List.length verts = 5%nat /\
  List.length (fst (Frustum fov aspect near far)) = 15%nat /\
  List.length indices = 18%nat /\
  nth 0 verts (THREE.vec3 1 1 1) = THREE.vec3 0 0 0 /\
  verts = THREE.vec3 0 0 0
          :: map (fun c => THREE.applyMatrix4 c projInv) ndc_corners /\
  Forall (fun i => (i < List.length verts)%nat) indices /\
  THREE.multiply (THREE.projectionMatrix camera) projInv = THREE.identity /\
  THREE.multiply projInv (THREE.projectionMatrix camera) = THREE.identity /\
  map (fun v => THREE.applyMatrix4 v (THREE.projectionMatrix camera))
      (tl verts)
  = ndc_corners.
Proof.
  intros Hv. cbv zeta.
  pose proof (projection_determinant fov aspect near far Hv) as Hdet.
  destruct (frustum_vertices_unprojected fov aspect near far)
    as [Hlen Hverts].
  unfold Frustum. cbn [fst snd]. rewrite Hverts.
  repeat apply conj.
  - reflexivity.
  - exact Hlen.
  - reflexivity.
  - reflexivity.
  - reflexivity.
  - unfold frustum_indices, ndc_corners. cbn [map List.length].
    repeat constructor.
  - unfold THREE.projectionMatrixInverse. now apply invert_correct.
  - unfold THREE.projectionMatrixInverse. now apply invert_correct_left.
  - unfold ndc_corners. cbn [tl map].
    rewrite !(unproject_far_corner fov aspect near far _ _ Hv).
    rewrite !(project_far_corner fov aspect near far _ _ Hv).
    reflexivity.
Qed.

Lemma frustum_wireframe_witness :
  List.length (vertices (fst (Frustum 55 1.6 0.1 3))) = 5%nat /\
  THREE.multiply
    (THREE.projectionMatrix (THREE.newPerspectiveCamera 55 1.6 0.1 3))
    (THREE.projectionMatrixInverse (THREE.newPerspectiveCamera 55 1.6 0.1 3))
  = THREE.identity.
Proof.
  destruct (frustum_wireframe 55 1.6 0.1 3
              ltac:(unfold valid_intrinsics; lra))
    as (H5 & _ & _ & _ & _ & _ & Hinv & _).
  split; [exact H5 | exact Hinv].
Defined.

(** X8. The buffer of a valid camera, in closed form: the apex, and four
    corners on the far plane [z = - far], at the half-height
    [far * tan (fov / 2)] and at the half-width [aspect] times that. *)
Corollary frustum_far_plane (fov aspect near far : R) :
  valid_intrinsics fov aspect near far ->
  let t := tan (THREE.DEG2RAD * (1 / 2) * fov) in
  vertices (ComputeFrustumVertices fov aspect near far)
  = [THREE.vec3 0 0 0;
     THREE.vec3 (-1 * (far * aspect * t)) (-1 * (far * t)) (- far);
     THREE.vec3 (-1 * (far * aspect * t)) (1 * (far * t)) (- far);
     THREE.vec3 (1 * (far * aspect * t)) (1 * (far * t)) (- far);
     THREE.vec3 (1 * (far * aspect * t)) (-1 * (far * t)) (- far)].
Proof.
  intros Hv t.
  destruct (frustum_vertices_unprojected fov aspect near far) as [_ ->].
  unfold ndc_corners. cbn [map].
  now rewrite !(unproject_far_corner fov aspect near far _ _ Hv).
Qed.

(** ** The depth of the handles *)

Lemma length_sub_distance (a b : THREE.Vector3) :
  THREE.length (THREE.sub a b) = distance a b.
Proof. reflexivity. Qed.

(** C3. After the per-frame update of a rig, whatever its camera pose and
    its focal position, the depth that places both handles in camera-local
    space is minus the Euclidean distance between the camera position and
    the focal point, and the handles sit at [(- leftHandle, 0, zDepth)] and
    [(rightHandle, 0, zDepth)]; the update moves neither the camera nor the
    focal point. *)
Theorem handles_at_focal_depth (o : AuxCamera.Objects)
    (c : AuxCamera.Controls) :
  let o' := fst (AuxCamera.perFrameUpdate o c) in
  let c' := snd (AuxCamera.perFrameUpdate o c) in
  let zDepth :=
    - distance (AuxCamera.camera_position o) (AuxCamera.focal_position o) in
  AuxCamera.z_depth c' = zDepth /\
  AuxCamera.leftHandle_position o'
  = THREE.vec3 (- AuxCamera.leftHandle c) 0 zDepth /\
  AuxCamera.rightHandle_position o'
  = THREE.vec3 (AuxCamera.rightHandle c) 0 zDepth /\
  AuxCamera.camera_position o' = AuxCamera.camera_position o /\
  AuxCamera.focal_position o' = AuxCamera.focal_position o /\
  distance (AuxCamera.camera_position o') (AuxCamera.focal_position o')
  = - zDepth.
Proof.
  cbv zeta. unfold AuxCamera.perFrameUpdate, AuxCamera.render,
    AuxCamera.useFrame, AuxCamera.z_depth.
  cbn [fst snd AuxCamera.set AuxCamera.pos AuxCamera.foc
       AuxCamera.leftHandle AuxCamera.rightHandle
       AuxCamera.leftHandle_position AuxCamera.rightHandle_position
       AuxCamera.camera_position AuxCamera.focal_position].
  rewrite length_sub_distance, Ropp_involutive.
  repeat apply conj; reflexivity.
Qed.

(** The handler of the two gizmos puts the handles at the same depth, and
    leaves their offsets alone. *)
Lemma updateFocal_depth
    (lookAt : THREE.Vector3 -> THREE.Vector3 -> THREE.Vector3)
    (o : AuxCamera.Objects) :
  let o' := AuxCamera.updateFocal lookAt o in
  let zDepth :=
    - distance (AuxCamera.camera_position o) (AuxCamera.focal_position o) in
  THREE.z (AuxCamera.leftHandle_position o') = zDepth /\
  THREE.z (AuxCamera.rightHandle_position o') = zDepth /\
  THREE.x (AuxCamera.leftHandle_position o')
  = THREE.x (AuxCamera.leftHandle_position o) /\
  THREE.x (AuxCamera.rightHandle_position o')
  = THREE.x (AuxCamera.rightHandle_position o).
Proof. repeat apply conj; reflexivity. Qed.

(** The depth is never positive: the handles are in front of the camera. *)
Lemma z_depth_nonpos (c : AuxCamera.Controls) : AuxCamera.z_depth c <= 0.
Proof.
  unfold AuxCamera.z_depth, THREE.length.
  pose proof (sqrt_pos
                (THREE.x (THREE.sub (AuxCamera.pos c) (AuxCamera.foc c))
                 * THREE.x (THREE.sub (AuxCamera.pos c) (AuxCamera.foc c))
                 + THREE.y (THREE.sub (AuxCamera.pos c) (AuxCamera.foc c))
                   * THREE.y (THREE.sub (AuxCamera.pos c) (AuxCamera.foc c))
                 + THREE.z (THREE.sub (AuxCamera.pos c) (AuxCamera.foc c))
                   * THREE.z (THREE.sub (AuxCamera.pos c) (AuxCamera.foc c)))).
  lra.
Qed.

(** ** The intrinsics stay in the ranges of their inputs *)

Lemma clamp_range (v lo hi : R) :
  lo <= hi -> lo <= Leva.clamp v lo hi <= hi.
Proof.
  intros H. unfold Leva.clamp.
  destruct (Rlt_dec hi v); [lra|]. destruct (Rlt_dec v lo); lra.
Qed.

Lemma clamp_id (v lo hi : R) : lo <= v <= hi -> Leva.clamp v lo hi = v.
Proof.
  intros H. unfold Leva.clamp.
  destruct (Rlt_dec hi v); [lra|]. destruct (Rlt_dec v lo); lra.
Qed.

Lemma set_in_range (e : AuxCamera.Edit) (c : AuxCamera.Controls) :
  intrinsics_in_range c -> intrinsics_in_range (AuxCamera.set e c).
Proof.
  unfold intrinsics_in_range. intros (Hn & Hf & Hv & Ha).
  destruct e; cbn [AuxCamera.set AuxCamera.near AuxCamera.far AuxCamera.fov
                   AuxCamera.aspect]; repeat apply conj; try lra;
    unfold Leva.sanitize;
    cbn [Leva.min Leva.max AuxCamera.near_input AuxCamera.far_input
         AuxCamera.fov_input AuxCamera.aspect_input];
    apply clamp_range; lra.
Qed.

Lemma edits_in_range (es : list AuxCamera.Edit) :
  forall c, intrinsics_in_range c -> intrinsics_in_range (edits es c).
Proof.
  induction es as [|e es IH]; intros c Hc; [exact Hc|].
  apply IH. now apply set_in_range.
Qed.

(** C5, as the code has it. A rig is always constructed, with the default
    intrinsics of the schema (near 0.1, far 3, fov 55, aspect 1.6), and
    after any sequence of edits the intrinsics are in the ranges of their
    inputs: near in [0.01, 1], far in [1, 10], fov in [0, 180], aspect in
    [0.1, 10]; so [near <= far] and [0 <= fov <= 180] always hold. *)
Theorem intrinsics_clamped (initPos initRot initFocal : THREE.Vector3)
    (es : list AuxCamera.Edit) :
  let c0 := AuxCamera.useControls initPos initRot initFocal in
  let c := edits es c0 in
  (AuxCamera.near c0 = 0.1 /\ AuxCamera.far c0 = 3 /\
   AuxCamera.fov c0 = 55 /\ AuxCamera.aspect c0 = 1.6) /\
  intrinsics_in_range c /\
  AuxCamera.near c <= AuxCamera.far c.
Proof.
  intros c0 c.
  assert (H0 : intrinsics_in_range c0).
  { unfold intrinsics_in_range, c0; simpl. lra. }
  pose proof (edits_in_range es c0 H0) as Hc. fold c in Hc.
  split; [repeat apply conj; reflexivity|].
  split; [exact Hc|]. unfold intrinsics_in_range in Hc. lra.
Qed.

(** The claim as the specification words it fails: edits clamp the field of
    view to [0] and bring near and far together, outside the ranges that
    the specification documents, and the rig renders its frustum all the
    same. *)
Lemma degenerate_intrinsics_accepted :
  let c := edits [AuxCamera.edit_fov (-5); AuxCamera.edit_near 5;
                  AuxCamera.edit_far 0]
                 (AuxCamera.useControls THREE.origin THREE.origin
                    THREE.origin) in
  AuxCamera.fov c = 0 /\ AuxCamera.near c = 1 /\ AuxCamera.far c = 1 /\
  ~ (0 < AuxCamera.fov c <= 180) /\
  ~ (AuxCamera.near c < AuxCamera.far c) /\
  AuxCamera.frustum_mesh (AuxCamera.render c) = Some (Frustum 0 1.6 1 1).
Proof.
  cbv zeta.
  assert (Hfov : Leva.sanitize AuxCamera.fov_input (-5) = 0).
  { unfold Leva.sanitize, Leva.clamp; simpl.
    destruct (Rlt_dec 180 (-5)); [lra|]. destruct (Rlt_dec (-5) 0); lra. }
  assert (Hnear : Leva.sanitize AuxCamera.near_input 5 = 1).
  { unfold Leva.sanitize, Leva.clamp; simpl.
    destruct (Rlt_dec 1 5); lra. }
  assert (Hfar : Leva.sanitize AuxCamera.far_input 0 = 1).
  { unfold Leva.sanitize, Leva.clamp; simpl.
    destruct (Rlt_dec 10 0); [lra|]. destruct (Rlt_dec 0 1); lra. }
  unfold edits. cbn [fold_left AuxCamera.set AuxCamera.useControls
                     AuxCamera.fov AuxCamera.near AuxCamera.far
                     AuxCamera.render AuxCamera.frustum_mesh
                     AuxCamera.frustum AuxCamera.aspect
                     AuxCamera.pos AuxCamera.rot AuxCamera.foc
                     AuxCamera.helper AuxCamera.leftHandle
                     AuxCamera.rightHandle].
  rewrite Hfov, Hnear, Hfar.
  repeat apply conj; try reflexivity; lra.
Qed.

(** ** The selection store *)

Lemma fold_left_invariant {A B : Type} (P : A -> Prop) (f : A -> B -> A) :
  (forall a b, P a -> P (f a b)) ->
  forall (l : list B) (a : A), P a -> P (fold_left f l a).
Proof.
  intros Hf. induction l as [|b l IH]; intros a Ha; [exact Ha|].
  simpl. apply IH. now apply Hf.
Qed.

(** [CameraBundle] writes to the tables only. *)
Lemma CameraBundle_render_selection (c : nat) (h : R) (st : Store) :
  focal (CameraBundle_render c h st) = focal st /\
  mode (CameraBundle_render c h st) = mode st.
Proof.
  unfold CameraBundle_render.
  apply (fold_left_invariant
           (fun s => focal s = focal st /\ mode s = mode st)).
  - intros s id [Hf Hm]. unfold CameraBundle_item.
    destruct (negb (has (leftHandlePos s) id)); [|now split].
    split; [exact Hf | exact Hm].
  - now split.
Qed.

Lemma step_snap (ev : Event) (w : World) : snap (step ev w) = state (step ev w).
Proof. reflexivity. Qed.

(** What an event does to the gizmo mode: nothing, or the increment modulo
    the number of modes that the context menu of the selected rig makes. *)
Lemma step_mode (ev : Event) (w : World) :
  mode (state (step ev w)) = mode (state w) \/
  (exists id, ev = ContextMenu id /\ focal (snap w) = Some id /\
     (id < count w)%nat /\
     mode (state (step ev w))
     = ((mode (snap w) + 1) mod List.length modes)%nat).
Proof.
  destruct ev as [id|ty|id|c|h|id f l r]; cbn [step rerender handle state].
  - left. destruct (id <? count w)%nat; reflexivity.
  - left. destruct (0 <? count w)%nat; [destruct ty|]; reflexivity.
  - destruct (Nat.ltb_spec id (count w)) as [Hlt|_]; [|now left].
    destruct (focal (snap w)) as [sel|] eqn:Hsel; [|now left].
    destruct (Nat.eqb_spec sel id) as [->|_]; [|now left].
    right. exists id. repeat split. exact Hlt.
  - left. destruct (sanitize_count c =? count w)%nat; cbn [state];
      [|unfold CameraBundle_effect, set_focal; cbn [mode]];
      apply CameraBundle_render_selection.
  - left. cbn [state]. apply CameraBundle_render_selection.
  - left. destruct (id <? count w)%nat; reflexivity.
Qed.

(** What an event does to the selection. *)
Lemma step_focal (ev : Event) (w : World) :
  focal (state (step ev w)) =
  match ev with
  | Click id => if (id <? count w)%nat then Some id else focal (state w)
  | PointerMissed click =>
      if (0 <? count w)%nat then None else focal (state w)
  | SetCount c =>
      if (sanitize_count c =? count w)%nat then focal (state w) else None
  | _ => focal (state w)
  end.
Proof.
  destruct ev as [id|ty|id|c|h|id f l r]; cbn [step rerender handle state].
  - destruct (id <? count w)%nat; reflexivity.
  - destruct ty; destruct (0 <? count w)%nat; reflexivity.
  - destruct (id <? count w)%nat; [|reflexivity].
    destruct (focal (snap w)) as [sel|]; [|reflexivity].
    destruct (sel =? id)%nat; reflexivity.
  - destruct (sanitize_count c =? count w)%nat; cbn [state];
      [apply CameraBundle_render_selection | reflexivity].
  - cbn [state]. apply CameraBundle_render_selection.
  - destruct (id <? count w)%nat; reflexivity.
Qed.

Lemma step_count (ev : Event) (w : World) :
  count (step ev w) =
  match ev with
  | SetCount c => sanitize_count c
  | _ => count w
  end.
Proof.
  destruct ev as [id|ty|id|c|h|id f l r]; cbn [step rerender handle count];
    try reflexivity.
  - destruct (id <? count w)%nat; reflexivity.
  - destruct (0 <? count w)%nat; [destruct ty|]; reflexivity.
  - destruct (id <? count w)%nat; [|reflexivity].
    destruct (focal (snap w)) as [sel|]; [|reflexivity].
    destruct (sel =? id)%nat; reflexivity.
  - destruct (id <? count w)%nat; reflexivity.
Qed.

Lemma mount_invariant : store_invariant mount.
Proof.
  repeat apply conj.
  - reflexivity.
  - unfold mount. cbn [state]. unfold CameraBundle_effect, set_focal.
    cbn [mode]. rewrite (proj2 (CameraBundle_render_selection _ _ _)).
    simpl. lia.
  - intros id H. discriminate H.
Qed.

Lemma step_invariant (ev : Event) (w : World) :
  store_invariant w -> store_invariant (step ev w).
Proof.
  intros (Hsnap & Hmode & Hsel). repeat apply conj.
  - apply step_snap.
  - destruct (step_mode ev w) as [-> | (id & _ & _ & _ & ->)];
      [exact Hmode|]. apply Nat.mod_upper_bound. discriminate.
  - intros id. rewrite step_focal, step_count.
    destruct ev as [i|ty|i|c|h|i f l r]; try apply Hsel.
    + destruct (Nat.ltb_spec i (count w)); [|apply Hsel].
      intros [= <-]. assumption.
    + destruct ty; try apply Hsel.
      destruct (0 <? count w)%nat; [discriminate | apply Hsel].
    + destruct (Nat.eqb_spec (sanitize_count c) (count w)) as [->|_];
        [apply Hsel | discriminate].
Qed.

Lemma reachable_invariant (w : World) : reachable w -> store_invariant w.
Proof.
  induction 1 as [|ev w _ IH]; [apply mount_invariant|].
  now apply step_invariant.
Qed.

Lemma run_reachable (evs : list Event) :
  forall w, reachable w -> reachable (run evs w).
Proof.
  induction evs as [|ev evs IH]; intros w Hw; [exact Hw|].
  simpl. apply IH. now constructor.
Qed.

(** C9. In every state that the application reaches, the gizmo mode is a
    valid index into the two-element list [modes], so [modes[mode]] is
    defined (and is ["translate"] or ["rotate"]).  The mode starts at [0],
    and an event either leaves it alone or replaces it by its increment
    modulo the length of [modes]. *)
Theorem mode_indexes_modes (evs : list Event) :
  let w := run evs mount in
  mode (state mount) = 0%nat /\
  (mode (state w) < List.length modes)%nat /\
  (mode (state w) = 0 \/ mode (state w) = 1)%nat /\
  (exists m, gizmoMode w = Some m /\
             (m = "translate"%string \/ m = "rotate"%string)) /\
  (forall ev,
     mode (state (step ev w)) = mode (state w) \/
     mode (state (step ev w))
     = ((mode (state w) + 1) mod List.length modes)%nat).
Proof.
  intros w.
  assert (Hw : reachable w) by (apply run_reachable; constructor).
  destruct (reachable_invariant w Hw) as (Hsnap & Hmode & _).
  assert (H0 : mode (state mount) = 0%nat).
  { unfold mount. cbn [state]. unfold CameraBundle_effect, set_focal.
    cbn [mode]. now rewrite (proj2 (CameraBundle_render_selection _ _ _)). }
  change (List.length modes) with 2%nat in *.
  repeat apply conj.
  - exact H0.
  - exact Hmode.
  - lia.
  - unfold gizmoMode. rewrite Hsnap.
    destruct (mode (state w)) as [|[|n]] eqn:Hm; [| |lia].
    + exists "translate"%string. split; [reflexivity | now left].
    + exists "rotate"%string. split; [reflexivity | now right].
  - intros ev.
    destruct (step_mode ev w) as [H | (id & _ & _ & _ & H)];
      [now left|right].
    now rewrite H, Hsnap.
Qed.

(** C8. On a state that satisfies the invariant of the store (every
    reachable state does) and in which rig [id] is selected, whatever the
    gizmo mode, the context menu of that rig changes the mode, and a second
    one brings the original mode back; the selection stays on the rig. *)
Theorem toggle_twice (w : World) (id : nat) :
  store_invariant w ->
  focal (state w) = Some id ->
  let w1 := step (ContextMenu id) w in
  let w2 := step (ContextMenu id) w1 in
  mode (state w1) <> mode (state w) /\
  mode (state w2) = mode (state w) /\
  gizmoMode w2 = gizmoMode w /\
  selectedId w2 = Some id.
Proof.
  intros (Hsnap & Hmode & Hmounted) Hsel w1 w2.
  pose proof (Hmounted id Hsel) as Hid.
  change (List.length modes) with 2%nat in Hmode.
  assert (Hstep : forall v : World,
            snap v = state v -> focal (state v) = Some id ->
            count v = count w ->
            mode (state (step (ContextMenu id) v))
            = ((mode (state v) + 1) mod 2)%nat /\
            focal (state (step (ContextMenu id) v)) = Some id /\
            count (step (ContextMenu id) v) = count w).
  { intros v Hv Hf Hc. rewrite step_focal, step_count.
    cbn [step rerender handle state]. rewrite Hv, Hf, Hc.
    destruct (Nat.ltb_spec id (count w)) as [_|]; [|lia].
    rewrite Nat.eqb_refl. repeat split. }
  destruct (Hstep w Hsnap Hsel eq_refl) as (Hm1 & Hf1 & Hc1).
  destruct (Hstep w1 (step_snap _ _) Hf1 Hc1) as (Hm2 & Hf2 & _).
  fold w1 in Hm1. fold w1 w2 in Hm2. fold w2 in Hf2.
  assert (Hback : mode (state w2) = mode (state w)).
  { rewrite Hm2, Hm1.
    destruct (mode (state w)) as [|[|n]]; [reflexivity | reflexivity | lia]. }
  repeat apply conj.
  - rewrite Hm1. destruct (mode (state w)) as [|[|n]];
      [discriminate | discriminate | lia].
  - exact Hback.
  - unfold gizmoMode. unfold w2 at 1. rewrite step_snap. fold w2.
    now rewrite Hback, Hsnap.
  - unfold selectedId. unfold w2 at 1. rewrite step_snap. fold w2.
    exact Hf2.
Qed.

Lemma toggle_twice_witness :
  let w := step (Click 0) mount in
  focal (state w) = Some 0%nat /\
  mode (state (step (ContextMenu 0) (step (ContextMenu 0) w)))
  = mode (state w).
Proof.
  split; [reflexivity|].
  exact (proj1 (proj2 (toggle_twice (step (Click 0) mount) 0
                         (step_invariant (Click 0) mount mount_invariant)
                         eq_refl))).
Defined.

(** The render between the two events matters: two context menus that
    read the same snapshot write the same mode, so the mode advances once
    instead of coming back. *)
Lemma toggle_on_stale_snapshot (w : World) (id : nat) :
  store_invariant w ->
  focal (state w) = Some id ->
  mode (state (handle (ContextMenu id) (handle (ContextMenu id) w)))
  = ((mode (state w) + 1) mod List.length modes)%nat.
Proof.
  intros (Hsnap & _ & Hmounted) Hsel.
  pose proof (Hmounted id Hsel) as Hid. apply Nat.ltb_lt in Hid.
  cbn [handle]. rewrite Hsnap, Hsel, Hid, Nat.eqb_refl.
  cbn [with_state snap count handle]. rewrite Hsnap, Hsel, Hid, Nat.eqb_refl.
  reflexivity.
Qed.

(** C7. Whenever an event changes the number of rigs, the selection is
    cleared, whatever the selection state was and whether or not the
    selected rig is still mounted. *)
Theorem count_change_unselects (w : World) (ev : Event) :
  count (step ev w) <> count w ->
  focal (state (step ev w)) = None /\
  selectedId (step ev w) = None.
Proof.
  rewrite step_count. intros Hc.
  assert (H : focal (state (step ev w)) = None).
  { rewrite step_focal.
    destruct ev as [id|ty|id|c|h|id f l r]; try contradiction.
    destruct (Nat.eqb_spec (sanitize_count c) (count w)); [contradiction|].
    reflexivity. }
  split; [exact H|]. unfold selectedId. now rewrite step_snap.
Qed.

Lemma count_change_unselects_witness :
  let w := step (Click 0) mount in
  count w = 4%nat /\ selectedId w = Some 0%nat /\
  count (step (SetCount 2) w) = 2%nat /\
  selectedId (step (SetCount 2) w) = None.
Proof.
  cbv zeta. do 3 (split; [reflexivity|]).
  apply (count_change_unselects (step (Click 0) mount) (SetCount 2)).
  rewrite step_count. discriminate.
Defined.

(** C4, as the code has it. After a click on rig [A] and a click on rig
    [B], both mounted, rig [B] is selected and the gizmo mode is the one
    held before: a selection never writes the mode. *)
Theorem select_keeps_mode (w : World) (A B : nat) :
  (A < count w)%nat ->
  (B < count w)%nat ->
  let w' := step (Click B) (step (Click A) w) in
  selectedId w' = Some B /\
  mode (state w') = mode (state w) /\
  gizmoMode w' = nth_error modes (mode (state w)).
Proof.
  intros HA HB w'.
  assert (Hc : count (step (Click A) w) = count w) by now rewrite step_count.
  assert (Hf : focal (state w') = Some B).
  { unfold w'. rewrite step_focal, Hc.
    destruct (Nat.ltb_spec B (count w)); [reflexivity | lia]. }
  assert (Hm : mode (state w') = mode (state w)).
  { unfold w'.
    destruct (step_mode (Click B) (step (Click A) w))
      as [-> | (id & Hev & _)]; [|discriminate Hev].
    destruct (step_mode (Click A) w) as [-> | (id & Hev & _)];
      [reflexivity | discriminate Hev]. }
  repeat apply conj.
  - unfold selectedId, w'. rewrite step_snap. exact Hf.
  - exact Hm.
  - unfold gizmoMode. unfold w' at 1. rewrite step_snap. fold w'.
    now rewrite Hm.
Qed.

Lemma select_keeps_mode_witness :
  let w' := step (Click 1) (step (Click 0) mount) in
  selectedId w' = Some 1%nat /\ gizmoMode w' = Some "translate"%string.
Proof.
  destruct (select_keeps_mode mount 0 1 ltac:(simpl; lia) ltac:(simpl; lia))
    as (Hs & _ & Hg).
  split; [exact Hs | exact Hg].
Defined.

(** The claim as the specification words it fails: with the gizmo in
    rotate mode, selecting rig 0 and then rig 1 leaves the mode on
    rotate. *)
Lemma select_does_not_reset_mode :
  let w := run [Click 0; ContextMenu 0] mount in
  let w' := step (Click 1) (step (Click 0) w) in
  gizmoMode w = Some "rotate"%string /\
  selectedId w' = Some 1%nat /\
  gizmoMode w' = Some "rotate"%string /\
  gizmoMode w' <> Some "translate"%string.
Proof.
  repeat apply conj; try reflexivity. discriminate.
Qed.

(** ** The tables cover the mounted rigs *)

Lemma get_put {A : Type} (arr : JSArray A) (i j : nat) (v : A) :
  get (put arr i v) j = if (j =? i)%nat then Some v else get arr j.
Proof.
  unfold get, put.
  destruct (Nat.ltb_spec i (List.length arr)) as [Hi|Hi].
  - assert (Hlen : List.length (firstn i arr) = i)
      by (apply firstn_length_le; lia).
    destruct (Nat.eqb_spec j i) as [->|Hne].
    + rewrite nth_error_app2 by lia. rewrite Hlen, Nat.sub_diag. reflexivity.
    + destruct (Nat.lt_ge_cases j i) as [Hlt|Hge].
      * rewrite nth_error_app1 by lia. rewrite nth_error_firstn.
        assert (Hb : (j <? i)%nat = true) by now apply Nat.ltb_lt.
        now rewrite Hb.
      * rewrite nth_error_app2 by lia. rewrite Hlen.
        destruct (j - i)%nat as [|k] eqn:Hk; [lia|].
        cbn [nth_error]. rewrite nth_error_skipn.
        replace (S i + k)%nat with j by lia. reflexivity.
  - destruct (Nat.eqb_spec j i) as [->|Hne].
    + rewrite nth_error_app2 by lia.
      rewrite nth_error_app2 by (rewrite repeat_length; lia).
      rewrite repeat_length, Nat.sub_diag. reflexivity.
    + destruct (Nat.lt_ge_cases j (List.length arr)) as [Hlt|Hge].
      * now rewrite nth_error_app1 by lia.
      * rewrite nth_error_app2 by lia.
        assert (Hnone : nth_error arr j = None)
          by (apply nth_error_None; lia).
        rewrite Hnone.
        destruct (Nat.lt_ge_cases j i) as [Hlt'|Hge'].
        -- rewrite nth_error_app1 by (rewrite repeat_length; lia).
           rewrite nth_error_repeat by lia. reflexivity.
        -- rewrite nth_error_app2 by (rewrite repeat_length; lia).
           rewrite repeat_length.
           destruct (j - List.length arr - (i - List.length arr))%nat
             as [|k] eqn:Hk; [lia|].
           cbn [nth_error]. now rewrite nth_error_nil.
Qed.

Lemma has_put {A : Type} (arr : JSArray A) (i j : nat) (v : A) :
  has (put arr i v) j = (j =? i)%nat || has arr j.
Proof.
  unfold has. rewrite get_put. now destruct (j =? i)%nat.
Qed.

Lemma publish_cover (st : Store) (n id : nat) (f l r : THREE.Vector3) :
  tables_cover st n ->
  tables_cover (publish id f l r st) n /\
  has (leftHandlePos (publish id f l r st)) id = true.
Proof.
  intros (Hf & Hr & Hc). unfold publish, tables_cover.
  cbn [focalPos leftHandlePos rightHandlePos]. repeat apply conj.
  - intros i. now rewrite !has_put, Hf.
  - intros i. now rewrite !has_put, Hr.
  - intros i Hi. rewrite has_put, (Hc i Hi). apply orb_true_r.
  - rewrite has_put, Nat.eqb_refl. reflexivity.
Qed.

Lemma tables_cover_S (st : Store) (n : nat) :
  tables_cover st n -> has (leftHandlePos st) n = true ->
  tables_cover st (S n).
Proof.
  intros (Hf & Hr & Hc) Hn. repeat apply conj; try assumption.
  intros i Hi. destruct (Nat.eq_dec i n) as [->|]; [exact Hn|].
  apply Hc. lia.
Qed.

Lemma CameraBundle_item_cover (c : nat) (h : R) (st : Store) (n id : nat) :
  tables_cover st n ->
  tables_cover (CameraBundle_item c h st id) n /\
  has (leftHandlePos (CameraBundle_item c h st id)) id = true.
Proof.
  intros H. unfold CameraBundle_item.
  destruct (has (leftHandlePos st) id) eqn:Hid; cbn [negb].
  - now split.
  - now apply publish_cover.
Qed.

Lemma CameraBundle_fold_cover (c : nat) (h : R) :
  forall (k : nat) (st : Store) (n : nat),
    tables_cover st n ->
    tables_cover (fold_left (CameraBundle_item c h) (seq 0 k) st) n /\
    tables_cover (fold_left (CameraBundle_item c h) (seq 0 k) st) k.
Proof.
  induction k as [|k IH]; intros st n H.
  - split; [exact H|]. destruct H as (Hf & Hr & _).
    repeat apply conj; try assumption. intros i Hi. lia.
  - rewrite seq_S, fold_left_app. cbn [fold_left Nat.add].
    destruct (IH st n H) as [Hn Hk].
    destruct (CameraBundle_item_cover c h _ n k Hn) as [Hn' _].
    destruct (CameraBundle_item_cover c h _ k k Hk) as [Hk' Hid].
    split; [exact Hn'|]. now apply tables_cover_S.
Qed.

Lemma CameraBundle_render_cover (c : nat) (h : R) (st : Store) (n : nat) :
  tables_cover st n -> tables_cover (CameraBundle_render c h st) c.
Proof. intros H. now apply (CameraBundle_fold_cover c h c st n). Qed.

Lemma state0_cover : tables_cover state0 0.
Proof. repeat apply conj; try reflexivity. intros i Hi. lia. Qed.

(** In every reachable state the tables hold an entry for each mounted
    rig. *)
Lemma reachable_cover (w : World) :
  reachable w -> tables_cover (state w) (count w).
Proof.
  induction 1 as [|ev w _ IH].
  - unfold mount. cbn [state count]. unfold CameraBundle_effect, set_focal.
    destruct (CameraBundle_render_cover 4 (Leva.value height_input / 2)
                state0 0 state0_cover) as (Hf & Hr & Hc).
    repeat apply conj; assumption.
  - destruct ev as [id|ty|id|c|h|id f l r];
      cbn [step rerender handle state count].
    + destruct (id <? count w)%nat; exact IH.
    + destruct (0 <? count w)%nat; [destruct ty|]; exact IH.
    + destruct (id <? count w)%nat; [|exact IH].
      destruct (focal (snap w)) as [sel|]; [|exact IH].
      destruct (sel =? id)%nat; exact IH.
    + pose proof (CameraBundle_render_cover (sanitize_count c)
                    (height w / 2) (state w) (count w) IH) as H.
      destruct (sanitize_count c =? count w)%nat; exact H.
    + exact (CameraBundle_render_cover (count w) _ (state w) (count w) IH).
    + destruct (id <? count w)%nat; [|exact IH].
      now apply publish_cover.
Qed.

Lemma has_get_or_origin (arr : JSArray THREE.Vector3) (i : nat) :
  has arr i = true -> get arr i = Some (get_or_origin arr i).
Proof.
  unfold has, get_or_origin. destruct (get arr i); [reflexivity|discriminate].
Qed.

Lemma cover_holds (st : Store) (n : nat) :
  tables_cover st n ->
  holds st (rigs_of st n) /\ List.length (rigs_of st n) = n.
Proof.
  intros (Hf & Hr & Hc). split.
  - intros i rig Hi. unfold rigs_of in Hi.
    rewrite nth_error_map, nth_error_seq in Hi.
    destruct (Nat.ltb_spec i n) as [Hlt|]; [|discriminate Hi].
    cbn in Hi. injection Hi as <-. cbn [rig_focal rig_left rig_right].
    pose proof (Hc i Hlt) as Hl.
    repeat apply conj; apply has_get_or_origin; congruence.
  - unfold rigs_of. now rewrite length_map, length_seq.
Qed.

(** X2. In every reachable state with at least two rigs, the spline draws
    the path of the mounted rigs, [(count - 1) * samples] points. *)
Corollary reachable_path (w : World) (samples : nat) :
  reachable w ->
  (2 <= count w)%nat ->
  Spline (state w) (count w) samples
  = Some (coords (path (rigs_of (state w) (count w)) samples)) /\
  List.length (vertices (computeCurve (state w) (count w) samples))
  = ((count w - 1) * samples)%nat.
Proof.
  intros Hw Hc.
  destruct (cover_holds _ _ (reachable_cover w Hw)) as [Hholds Hlen].
  pose proof (computeCurve_path (state w) _ samples Hholds) as Hp.
  rewrite Hlen in Hp. split.
  - unfold Spline. destruct (Nat.ltb_spec 1 (count w)); [|lia].
    now rewrite Hp.
  - rewrite Hp, vertices_coords, path_length, Hlen. reflexivity.
Qed.

(** ** Further facts about the rigs *)

(** Consecutive segments meet at the focal point of the rig they share:
    the curve of [(a, b)] would end, at the parameter [1], where the curve
    of [(b, c)] starts. *)
Lemma segments_meet (a b c : RigPositions) :
  THREE.getPoint (segment a b) 1 = rig_focal b /\
  THREE.getPoint (segment b c) 0 = rig_focal b.
Proof. split; [apply getPoint_1 | apply getPoint_0]. Qed.

(** The handle offsets stay in the range of their inputs, away from [0]. *)
Lemma edits_handles_in_range (es : list AuxCamera.Edit) :
  forall c, handles_in_range c -> handles_in_range (edits es c).
Proof.
  induction es as [|e es IH]; intros c Hc; [exact Hc|].
  apply IH. destruct Hc as [Hl Hr]. unfold handles_in_range.
  destruct e; cbn [AuxCamera.set AuxCamera.leftHandle AuxCamera.rightHandle];
    split; try assumption; unfold Leva.sanitize;
    cbn [Leva.min Leva.max AuxCamera.leftHandle_input
         AuxCamera.rightHandle_input];
    apply clamp_range; lra.
Qed.

(** The count that [App] passes on is what the [count] input lets
    through. *)
Lemma sanitize_count_input (c : nat) :
  INR (sanitize_count c) = Leva.sanitize count_input (INR c).
Proof.
  unfold sanitize_count, Leva.sanitize, Leva.clamp, count_input.
  cbn [Leva.min Leva.max].
  assert (H10 : INR 10 = 10) by (simpl; lra).
  pose proof (pos_INR c) as Hpos.
  destruct (Rlt_dec 10 (INR c)) as [Hgt|Hle].
  - rewrite Nat.min_r; [exact H10|].
    apply Nat.lt_le_incl. apply INR_lt. now rewrite H10.
  - destruct (Rlt_dec (INR c) 0) as [Hneg|_]; [lra|].
    rewrite Nat.min_l; [reflexivity|].
    apply INR_le. rewrite H10. lra.
Qed.

(** The event [Frame] is the publishing half of [useFrame]. *)
Lemma Frame_publishes (w : World) (id : nat)
    (localToWorld : THREE.Vector3 -> THREE.Vector3)
    (o : AuxCamera.Objects) :
  (id < count w)%nat ->
  state (step (Frame id (AuxCamera.focal_position o)
                 (localToWorld (AuxCamera.leftHandle_position o))
                 (localToWorld (AuxCamera.rightHandle_position o))) w)
  = AuxCamera.useFrame_publish id localToWorld o (state w).
Proof.
  intros Hid. apply Nat.ltb_lt in Hid.
  cbn [step rerender handle state]. now rewrite Hid.
Qed.

(** ** The definitions at work *)

(** A curve with evenly spaced, aligned control points is walked at
    constant speed. *)
Example getPoint_half :
  THREE.getPoint
    (THREE.curve3 (THREE.vec3 0 0 0) (THREE.vec3 1 0 0)
                  (THREE.vec3 2 0 0) (THREE.vec3 3 0 0))
    (1 / 2)
  = THREE.vec3 (3 / 2) 0 0.
Proof.
  unfold THREE.getPoint, THREE.CubicBezier, THREE.CubicBezierP0,
    THREE.CubicBezierP1, THREE.CubicBezierP2, THREE.CubicBezierP3.
  cbn [THREE.x THREE.y THREE.z THREE.v0 THREE.v1 THREE.v2 THREE.v3].
  apply vec3_eq; lra.
Qed.

(** The buffer of three rigs on a line, two samples a segment; the
    leftover entry of a fourth rig is not read. *)
Example three_rigs_buffer :
  computeCurve (store_of three_rigs leftover) 3 2
  = [0; 0; 0;  3 / 2; 0; 0;  3; 0; 0;  9 / 2; 0; 0].
Proof.
  pose proof (computeCurve_path (store_of three_rigs leftover) three_rigs 2
                (holds_store_of three_rigs leftover)) as H.
  change (List.length three_rigs) with 3%nat in H. rewrite H.
  unfold three_rigs, path, sample, segment, coords, THREE.getPoint,
    THREE.CubicBezier, THREE.CubicBezierP0, THREE.CubicBezierP1,
    THREE.CubicBezierP2, THREE.CubicBezierP3.
  cbn [seq map app flat_map INR rig_focal rig_left rig_right
       THREE.x THREE.y THREE.z THREE.v0 THREE.v1 THREE.v2 THREE.v3].
  repeat (apply f_equal2; [lra|]). reflexivity.
Qed.

(** A camera at [(0, 1, 2.5)] with its focal point at [(0, 1, 1.5)] has its
    handles one unit ahead. *)
Example z_depth_unit :
  AuxCamera.z_depth
    (AuxCamera.useControls (THREE.vec3 0 1 2.5) THREE.origin
       (THREE.vec3 0 1 1.5))
  = -1.
Proof.
  unfold AuxCamera.z_depth, AuxCamera.useControls, THREE.length, THREE.sub.
  cbn [AuxCamera.pos AuxCamera.foc THREE.x THREE.y THREE.z].
  replace ((0 - 0) * (0 - 0) + (1 - 1) * (1 - 1)
           + (2.5 - 1.5) * (2.5 - 1.5)) with 1 by lra.
  now rewrite sqrt_1.
Qed.

(** The first render fills the tables for the four rigs and selects
    none. *)
Example mount_tables :
  List.length (focalPos (state mount)) = 4%nat /\
  List.length (leftHandlePos (state mount)) = 4%nat /\
  List.length (rightHandlePos (state mount)) = 4%nat /\
  focal (state mount) = None /\
  get (leftHandlePos (state mount)) 0 = Some (THREE.vec3 (-3) (1.75 / 2) 2.5).
Proof.
  do 4 (split; [lazy; reflexivity|]).
  lazy -[IZR INR]. f_equal. apply vec3_eq; simpl INR; lra.
Qed.

(* ================================================================== *)
(** * Further properties of the program *)
(* ================================================================== *)

(** ** The tables and the mounted rigs *)

Lemma has_true_get {A : Type} (arr : JSArray A) (i : nat) :
  has arr i = true -> exists v, get arr i = Some v.
Proof.
  unfold has. destruct (get arr i) as [v|]; [|discriminate].
  intros _. now exists v.
Qed.

(** X1. After any sequence of events, each of the three position tables
    has an entry for every mounted rig: [CameraBundle] fills the missing
    ones before [Spline] reads them, and no event removes one. *)
Theorem tables_cover_mounted_rigs (evs : list Event) (i : nat) :
  (i < count (run evs mount))%nat ->
  exists f l r,
    get (focalPos (state (run evs mount))) i = Some f /\
    get (leftHandlePos (state (run evs mount))) i = Some l /\
    get (rightHandlePos (state (run evs mount))) i = Some r.
Proof.
  intros Hi.
  assert (Hw : reachable (run evs mount))
    by (apply run_reachable; constructor).
  destruct (reachable_cover _ Hw) as (Hf & Hr & Hc).
  pose proof (Hc i Hi) as Hl.
  destruct (has_true_get _ i Hl) as [l Hgl].
  rewrite <- Hf in Hl. destruct (has_true_get _ i Hl) as [f Hgf].
  rewrite Hf, <- Hr in Hl. destruct (has_true_get _ i Hl) as [r Hgr].
  now exists f, l, r.
Qed.

Lemma tables_cover_mounted_rigs_witness :
  exists f l r,
    get (focalPos (state (run [SetCount 6] mount))) 5 = Some f /\
    get (leftHandlePos (state (run [SetCount 6] mount))) 5 = Some l /\
    get (rightHandlePos (state (run [SetCount 6] mount))) 5 = Some r.
Proof.
  apply (tables_cover_mounted_rigs [SetCount 6] 5). lazy. lia.
Defined.

Lemma reachable_path_witness :
  List.length
    (vertices (computeCurve (state (step (SetCount 3) mount)) 3 20))
  = 40%nat.
Proof.
  exact (proj2 (reachable_path (step (SetCount 3) mount) 20
                  (reachable_step (SetCount 3) mount reachable_mount)
                  ltac:(lazy; lia))).
Defined.

(** X3. After any sequence of events the snapshot is current and the
    selected rig, if there is one, is a mounted rig: the objects that
    [Controls] looks up by the selected name exist. *)
Theorem selected_rig_is_mounted (evs : list Event) (id : nat) :
  selectedId (run evs mount) = Some id ->
  (id < count (run evs mount))%nat /\
  focal (state (run evs mount)) = Some id.
Proof.
  intros Hsel.
  assert (Hw : reachable (run evs mount))
    by (apply run_reachable; constructor).
  destruct (reachable_invariant _ Hw) as (Hsnap & _ & Hmounted).
  unfold selectedId in Hsel. rewrite Hsnap in Hsel.
  split; [now apply Hmounted | exact Hsel].
Qed.

Lemma selected_rig_is_mounted_witness :
  (2 < count (run [Click 2] mount))%nat.
Proof.
  apply (selected_rig_is_mounted [Click 2] 2). reflexivity.
Defined.

(** ** [CameraBundle] and the entries that are already there *)

Lemma fold_left_fixed {A B : Type} (f : A -> B -> A) (a : A) :
  forall l : list B, (forall b, In b l -> f a b = a) -> fold_left f l a = a.
Proof.
  induction l as [|b l IH]; intros H; [reflexivity|].
  simpl. rewrite (H b) by now left. apply IH. intros b' Hb'. apply H.
  now right.
Qed.

Lemma CameraBundle_render_covered (c n : nat) (h : R) (st : Store) :
  tables_cover st n -> (c <= n)%nat -> CameraBundle_render c h st = st.
Proof.
  intros (_ & _ & Hc) Hle. unfold CameraBundle_render.
  apply fold_left_fixed. intros id Hid. apply in_seq in Hid.
  unfold CameraBundle_item. rewrite Hc by lia. reflexivity.
Qed.

Lemma publish_get_other (st : Store) (id i : nat) (f l r : THREE.Vector3) :
  i <> id ->
  get (focalPos (publish id f l r st)) i = get (focalPos st) i /\
  get (leftHandlePos (publish id f l r st)) i = get (leftHandlePos st) i /\
  get (rightHandlePos (publish id f l r st)) i = get (rightHandlePos st) i.
Proof.
  intros Hne. unfold publish. cbn [focalPos leftHandlePos rightHandlePos].
  rewrite !get_put. apply Nat.eqb_neq in Hne. now rewrite Hne.
Qed.

Lemma CameraBundle_item_keeps (c : nat) (h : R) (st : Store) (id i : nat) :
  has (leftHandlePos st) i = true ->
  get (focalPos (CameraBundle_item c h st id)) i = get (focalPos st) i /\
  get (leftHandlePos (CameraBundle_item c h st id)) i
  = get (leftHandlePos st) i /\
  get (rightHandlePos (CameraBundle_item c h st id)) i
  = get (rightHandlePos st) i.
Proof.
  intros Hi. unfold CameraBundle_item.
  destruct (has (leftHandlePos st) id) eqn:Hid; cbn [negb];
    [repeat apply conj; reflexivity|].
  apply publish_get_other. intros ->. congruence.
Qed.

(** X4. [CameraBundle] never overwrites: an index at which the left-handle
    table has an entry keeps its three entries through a render of the
    bundle, whatever the count and the height.  A rig that is mounted
    again finds the positions that the rig of that id published last. *)
Theorem CameraBundle_never_overwrites (c : nat) (h : R) (st : Store)
    (i : nat) :
  has (leftHandlePos st) i = true ->
  get (focalPos (CameraBundle_render c h st)) i = get (focalPos st) i /\
  get (leftHandlePos (CameraBundle_render c h st)) i
  = get (leftHandlePos st) i /\
  get (rightHandlePos (CameraBundle_render c h st)) i
  = get (rightHandlePos st) i.
Proof.
  intros Hi. unfold CameraBundle_render.
  apply (fold_left_invariant
           (fun s =>
              get (focalPos s) i = get (focalPos st) i /\
              get (leftHandlePos s) i = get (leftHandlePos st) i /\
              get (rightHandlePos s) i = get (rightHandlePos st) i)).
  - intros s id (Hf & Hl & Hr).
    assert (Hs : has (leftHandlePos s) i = true).
    { unfold has in *. now rewrite Hl. }
    destruct (CameraBundle_item_keeps c h s id i Hs) as (Hf' & Hl' & Hr').
    repeat apply conj; congruence.
  - repeat apply conj; reflexivity.
Qed.

Lemma CameraBundle_never_overwrites_witness :
  get (focalPos
         (CameraBundle_render 5 1 (store_of three_rigs leftover))) 3
  = Some (THREE.vec3 9 9 9).
Proof.
  rewrite (proj1 (CameraBundle_never_overwrites 5 1
                    (store_of three_rigs leftover) 3 eq_refl)).
  reflexivity.
Defined.

(** X5. In a reachable state, an edit of the height, or an edit of the
    count that does not raise it, leaves the three tables as they are:
    the entries of removed rigs stay behind, and no published position is
    reset. *)
Theorem rerender_keeps_tables (w : World) :
  reachable w ->
  (forall h,
     focalPos (state (step (SetHeight h) w)) = focalPos (state w) /\
     leftHandlePos (state (step (SetHeight h) w)) = leftHandlePos (state w) /\
     rightHandlePos (state (step (SetHeight h) w))
     = rightHandlePos (state w)) /\
  (forall c, (sanitize_count c <= count w)%nat ->
     focalPos (state (step (SetCount c) w)) = focalPos (state w) /\
     leftHandlePos (state (step (SetCount c) w)) = leftHandlePos (state w) /\
     rightHandlePos (state (step (SetCount c) w))
     = rightHandlePos (state w)).
Proof.
  intros Hw. pose proof (reachable_cover w Hw) as Hcover. split.
  - intros h. cbn [step rerender handle state].
    rewrite (CameraBundle_render_covered _ (count w) _ _ Hcover (le_n _)).
    repeat apply conj; reflexivity.
  - intros c Hc. cbn [step rerender handle state].
    rewrite (CameraBundle_render_covered _ (count w) _ _ Hcover Hc).
    destruct (sanitize_count c =? count w)%nat;
      repeat apply conj; reflexivity.
Qed.

Lemma rerender_keeps_tables_witness :
  focalPos (state (step (SetCount 2) mount)) = focalPos (state mount) /\
  List.length (focalPos (state (step (SetCount 2) mount))) = 4%nat.
Proof.
  split.
  - apply (proj2 (rerender_keeps_tables mount reachable_mount) 2%nat).
    lazy. lia.
  - lazy. reflexivity.
Defined.

(** ** What an event writes *)

(** X6. The frame of a mounted rig writes the three published positions
    at the index of the rig and nothing else: the entries of the other
    rigs, the selection, the mode and the count are as before.  The frame
    of a rig that is not mounted writes nothing. *)
Theorem Frame_writes_own_entry (w : World) (id : nat)
    (f l r : THREE.Vector3) :
  let w' := step (Frame id f l r) w in
  ((id < count w)%nat ->
     get (focalPos (state w')) id = Some f /\
     get (leftHandlePos (state w')) id = Some l /\
     get (rightHandlePos (state w')) id = Some r) /\
  (forall j, j <> id ->
     get (focalPos (state w')) j = get (focalPos (state w)) j /\
     get (leftHandlePos (state w')) j = get (leftHandlePos (state w)) j /\
     get (rightHandlePos (state w')) j = get (rightHandlePos (state w)) j) /\
  ((count w <= id)%nat -> state w' = state w) /\
  focal (state w') = focal (state w) /\
  mode (state w') = mode (state w) /\
  count w' = count w.
Proof.
  cbv zeta. cbn [step rerender handle state count].
  destruct (Nat.ltb_spec id (count w)) as [Hlt|Hge];
    cbn [with_state state count].
  - repeat apply conj; try reflexivity.
    + intros _. unfold publish. cbn [focalPos leftHandlePos rightHandlePos].
      rewrite !get_put, Nat.eqb_refl. repeat apply conj; reflexivity.
    + intros j Hj. now apply publish_get_other.
    + intros Hle. lia.
  - repeat apply conj; try reflexivity.
    + intros Hlt. lia.
    + intros j _. repeat apply conj; reflexivity.
Qed.

Lemma Frame_writes_own_entry_witness :
  get (leftHandlePos
         (state (step (Frame 1 (THREE.vec3 0 1 0) (THREE.vec3 1 2 3)
                         (THREE.vec3 4 5 6)) mount))) 1
  = Some (THREE.vec3 1 2 3).
Proof.
  apply (proj1 (Frame_writes_own_entry mount 1 (THREE.vec3 0 1 0)
                  (THREE.vec3 1 2 3) (THREE.vec3 4 5 6))).
  lazy. lia.
Defined.

(** X7. Pointer events never touch the position tables or the count;
    frames and height edits never touch the selection, the mode or the
    count; an edit of the count never touches the mode. *)
Theorem events_write_their_own_fields (w : World) (ev : Event) :
  match ev with
  | Click _ | PointerMissed _ | ContextMenu _ =>
      focalPos (state (step ev w)) = focalPos (state w) /\
      leftHandlePos (state (step ev w)) = leftHandlePos (state w) /\
      rightHandlePos (state (step ev w)) = rightHandlePos (state w) /\
      count (step ev w) = count w
  | Frame _ _ _ _ | SetHeight _ =>
      focal (state (step ev w)) = focal (state w) /\
      mode (state (step ev w)) = mode (state w) /\
      count (step ev w) = count w
  | SetCount _ => mode (state (step ev w)) = mode (state w)
  end.
Proof.
  destruct ev as [id|ty|id|c|h|id f l r];
    cbn [step rerender handle state count].
  - destruct (id <? count w)%nat; repeat apply conj; reflexivity.
  - destruct (0 <? count w)%nat; [destruct ty|];
      repeat apply conj; reflexivity.
  - destruct (id <? count w)%nat; [|repeat apply conj; reflexivity].
    destruct (focal (snap w)) as [sel|]; [|repeat apply conj; reflexivity].
    destruct (sel =? id)%nat; repeat apply conj; reflexivity.
  - destruct (sanitize_count c =? count w)%nat; cbn [state];
      [|unfold CameraBundle_effect, set_focal; cbn [mode]];
      apply CameraBundle_render_selection.
  - cbn [state].
    destruct (CameraBundle_render_selection (count w)
                (Leva.sanitize height_input h / 2) (state w)) as [Hf Hm].
    repeat apply conj; [exact Hf | exact Hm | reflexivity].
  - destruct (id <? count w)%nat; repeat apply conj; reflexivity.
Qed.

(** ** The frustum of a valid camera *)

Lemma frustum_far_plane_witness :
  nth 0 (vertices (ComputeFrustumVertices 55 1.6 0.1 3)) (THREE.vec3 1 1 1)
  = THREE.vec3 0 0 0.
Proof.
  rewrite (frustum_far_plane 55 1.6 0.1 3
             ltac:(unfold valid_intrinsics; lra)).
  reflexivity.
Defined.

(** X9. For valid intrinsics the four corners that [ComputeFrustumVertices]
    computes project back, through the projection matrix of the camera, to
    the corners [(-1,-1,1)], [(-1,1,1)], [(1,1,1)], [(1,-1,1)] of the clip
    cube. *)
Theorem frustum_corners_project_back (fov aspect near far : R) :
  valid_intrinsics fov aspect near far ->
  map (fun v =>
         THREE.applyMatrix4 v
           (THREE.projectionMatrix
              (THREE.newPerspectiveCamera fov aspect near far)))
      (tl (vertices (ComputeFrustumVertices fov aspect near far)))
  = ndc_corners.
Proof.
  intros Hv.
  destruct (frustum_vertices_unprojected fov aspect near far) as [_ ->].
  unfold ndc_corners. cbn [tl map].
  rewrite !(unproject_far_corner fov aspect near far _ _ Hv).
  rewrite !(project_far_corner fov aspect near far _ _ Hv).
  reflexivity.
Qed.

Lemma frustum_corners_project_back_witness :
  List.length
    (map (fun v =>
            THREE.applyMatrix4 v
              (THREE.projectionMatrix
                 (THREE.newPerspectiveCamera 55 1.6 0.1 3)))
         (tl (vertices (ComputeFrustumVertices 55 1.6 0.1 3))))
  = 4%nat.
Proof.
  rewrite (frustum_corners_project_back 55 1.6 0.1 3
             ltac:(unfold valid_intrinsics; lra)).
  reflexivity.
Defined.

(** ** The first layout of the rigs *)

Lemma length_normalize (v : THREE.Vector3) :
  THREE.length v <> 0 -> THREE.length (THREE.normalize v) = 1.
Proof.
  intros Hne. unfold THREE.normalize.
  destruct (Req_dec_T (THREE.length v) 0) as [Hz|_]; [contradiction|].
  revert Hne. unfold THREE.length, THREE.divideScalar.
  cbn [THREE.x THREE.y THREE.z].
  set (s := THREE.x v * THREE.x v + THREE.y v * THREE.y v
            + THREE.z v * THREE.z v).
  intros Hne.
  assert (Hs : 0 <= s).
  { unfold s. pose proof (Rle_0_sqr (THREE.x v)).
    pose proof (Rle_0_sqr (THREE.y v)). pose proof (Rle_0_sqr (THREE.z v)).
    unfold Rsqr in *. lra. }
  pose proof (sqrt_sqrt s Hs) as Hsq.
  replace (THREE.x v * (1 / sqrt s) * (THREE.x v * (1 / sqrt s))
           + THREE.y v * (1 / sqrt s) * (THREE.y v * (1 / sqrt s))
           + THREE.z v * (1 / sqrt s) * (THREE.z v * (1 / sqrt s)))
    with (s * (1 / sqrt s) * (1 / sqrt s)) by (unfold s; ring).
  rewrite <- Hsq at 1.
  replace (sqrt s * sqrt s * (1 / sqrt s) * (1 / sqrt s)) with 1
    by (field; exact Hne).
  apply sqrt_1.
Qed.

Lemma bundle_direction_nonzero (count : nat) (h : R) (id : nat) :
  THREE.length (THREE.sub (THREE.vec3 0 h 0) (initPos count h id)) <> 0.
Proof.
  unfold THREE.length, THREE.sub, initPos. cbn [THREE.x THREE.y THREE.z].
  apply Rgt_not_eq. apply sqrt_lt_R0.
  pose proof (Rle_0_sqr (0 - (bundle_offset count + interval * INR id))) as H.
  unfold Rsqr in H. lra.
Qed.

(** X10. Whatever the count, the height and the id, [CameraBundle] puts
    the focal point of a rig exactly one unit away from its camera, at the
    height of the camera and closer to the subject; so the handles of a
    fresh rig are at depth [-1]. *)
Theorem initial_focal_unit_distance (count : nat) (h : R) (id : nat)
    (initRot : THREE.Vector3) :
  distance (initPos count h id) (initFocal count h id) = 1 /\
  THREE.y (initFocal count h id) = h /\
  THREE.z (initFocal count h id) < THREE.z (initPos count h id) /\
  AuxCamera.z_depth
    (AuxCamera.useControls (initPos count h id) initRot
       (initFocal count h id))
  = -1.
Proof.
  pose proof (bundle_direction_nonzero count h id) as Hne.
  pose proof (length_normalize _ Hne) as Hunit.
  assert (Hd : distance (initPos count h id) (initFocal count h id) = 1).
  { rewrite <- Hunit. unfold distance, initFocal, THREE.length, THREE.add.
    cbn [THREE.x THREE.y THREE.z]. f_equal. unfold Rsqr. ring. }
  repeat apply conj.
  - exact Hd.
  - unfold initFocal, THREE.add, THREE.normalize, THREE.divideScalar,
      THREE.sub, initPos. cbn [THREE.x THREE.y THREE.z]. ring.
  - unfold initFocal, THREE.add, THREE.normalize.
    destruct (Req_dec_T _ 0) as [Hz|_]; [contradiction|].
    unfold THREE.divideScalar. cbn [THREE.x THREE.y THREE.z].
    set (len := THREE.length _) in *.
    assert (Hlen : 0 < len).
    { unfold len, THREE.length in *. pose proof (sqrt_pos
        (THREE.x (THREE.sub (THREE.vec3 0 h 0) (initPos count h id))
         * THREE.x (THREE.sub (THREE.vec3 0 h 0) (initPos count h id))
         + THREE.y (THREE.sub (THREE.vec3 0 h 0) (initPos count h id))
           * THREE.y (THREE.sub (THREE.vec3 0 h 0) (initPos count h id))
         + THREE.z (THREE.sub (THREE.vec3 0 h 0) (initPos count h id))
           * THREE.z (THREE.sub (THREE.vec3 0 h 0) (initPos count h id)))).
      lra. }
    assert (Hinv : 0 < 1 / len) by (apply Rdiv_lt_0_compat; lra).
    unfold THREE.sub, initPos. cbn [THREE.x THREE.y THREE.z]. nra.
  - unfold AuxCamera.z_depth, AuxCamera.useControls.
    cbn [AuxCamera.pos AuxCamera.foc].
    rewrite length_sub_distance, Hd. reflexivity.
Qed.

(** The positions that a bundle of [count] rigs computes: on a line, two
    units apart, at the given height and at [z = 2.5], centred on the
    subject. *)
Lemma initPos_layout (count : nat) (h : R) (id : nat) :
  (id < count)%nat ->
  THREE.x (initPos count h id)
  = - THREE.x (initPos count h (count - 1 - id)) /\
  THREE.x (initPos count h (S id)) - THREE.x (initPos count h id) = 2 /\
  THREE.y (initPos count h id) = h /\
  THREE.z (initPos count h id) = 2.5 /\
  - (INR count - 1) <= THREE.x (initPos count h id) <= INR count - 1.
Proof.
  intros Hid. unfold initPos, bundle_offset, interval.
  cbn [THREE.x THREE.y THREE.z].
  assert (Hsub : INR (count - 1 - id) = INR count - 1 - INR id).
  { rewrite !minus_INR by lia. simpl. lra. }
  assert (Hlt : INR id <= INR count - 1).
  { replace (INR count - 1) with (INR (count - 1))
      by (rewrite minus_INR by lia; simpl; lra).
    apply le_INR. lia. }
  pose proof (pos_INR id) as Hpos.
  rewrite Hsub, S_INR. repeat apply conj; try reflexivity; lra.
Qed.

(** ** More about the path *)

Lemma path_cons (a b : RigPositions) (rest : list RigPositions)
    (samples : nat) :
  path (a :: b :: rest) samples
  = sample (segment a b) samples ++ path (b :: rest) samples.
Proof. reflexivity. Qed.

Lemma path_nth_focal (samples : nat) :
  (0 < samples)%nat ->
  forall (rigs : list RigPositions) (i : nat) (a : RigPositions),
    nth_error rigs i = Some a ->
    (S i < List.length rigs)%nat ->
    nth (i * samples) (path rigs samples) THREE.origin = rig_focal a.
Proof.
  intros Hs. induction rigs as [|a0 rest IH]; intros i a Ha Hi;
    [simpl in Hi; lia|].
  destruct rest as [|b rest']; [simpl in Hi; lia|].
  rewrite path_cons. destruct i as [|i'].
  - injection Ha as <-. rewrite app_nth1 by (rewrite sample_length; lia).
    rewrite sample_nth by lia. simpl INR.
    replace (0 / INR samples) with 0 by (unfold Rdiv; ring).
    apply getPoint_0.
  - rewrite app_nth2 by (rewrite sample_length; simpl; lia).
    rewrite sample_length.
    replace (S i' * samples - samples)%nat with (i' * samples)%nat
      by (simpl; lia).
    apply IH; [exact Ha | simpl in Hi |- *; lia].
Qed.

(** X12. The polyline goes through the focal point of every rig but the
    last: with at least one sample a segment, the point at index
    [i * samples] of the buffer is the focal point of rig [i], for every
    rig [i] that has a successor. *)
Theorem path_through_focals (st : Store) (rigs : list RigPositions)
    (samples i : nat) (a : RigPositions) :
  holds st rigs ->
  (0 < samples)%nat ->
  nth_error rigs i = Some a ->
  (S i < List.length rigs)%nat ->
  nth (i * samples)
      (vertices (computeCurve st (List.length rigs) samples)) THREE.origin
  = rig_focal a.
Proof.
  intros H Hs Ha Hi.
  rewrite (computeCurve_path st rigs samples H), vertices_coords.
  now apply path_nth_focal.
Qed.

Lemma path_through_focals_witness :
  nth 20 (vertices (computeCurve (store_of three_rigs leftover) 3 20))
      THREE.origin
  = THREE.vec3 3 0 0.
Proof.
  exact (path_through_focals (store_of three_rigs leftover) three_rigs 20 1
           (mkRig (THREE.vec3 3 0 0) (THREE.vec3 2 0 0) (THREE.vec3 4 0 0))
           (holds_store_of three_rigs leftover)
           ltac:(lia) eq_refl ltac:(simpl; lia)).
Defined.

Lemma ComputeSplineVertices_sample (c : THREE.CubicBezierCurve3)
    (samples : nat) :
  ComputeSplineVertices c samples = coords (sample c samples).
Proof.
  unfold ComputeSplineVertices. cbv zeta.
  rewrite (for_range_push
             (fun i => [THREE.x (nth i (THREE.getPoints c samples) THREE.origin);
                        THREE.y (nth i (THREE.getPoints c samples) THREE.origin);
                        THREE.z (nth i (THREE.getPoints c samples) THREE.origin)])).
  now rewrite coords_map_flat, firstn_getPoints.
Qed.

Lemma path_consecutive (samples : nat) :
  forall rigs : list RigPositions,
    path rigs samples
    = flat_map (fun ab => sample (segment (fst ab) (snd ab)) samples)
        (consecutive rigs).
Proof.
  induction rigs as [|a rest IH]; [reflexivity|].
  destruct rest as [|b rest']; [reflexivity|].
  rewrite path_cons, IH. reflexivity.
Qed.

Lemma coords_flat_map {A : Type} (f : A -> list THREE.Vector3) :
  forall l : list A,
    coords (flat_map f l) = flat_map (fun a => coords (f a)) l.
Proof.
  induction l as [|a l IH]; [reflexivity|].
  simpl. now rewrite coords_app, IH.
Qed.

(** X13. [ComputeSplineVertices] returns the [samples] points of a curve
    at the parameters [k / samples], [k < samples], as [3 * samples]
    numbers, and the loop of [computeCurve] is this helper written inline:
    the buffer of the path is the concatenation of the buffers of the
    curves of the consecutive pairs of rigs. *)
Theorem computeCurve_by_segments (st : Store) (rigs : list RigPositions)
    (samples : nat) :
  holds st rigs ->
  (forall c,
     vertices (ComputeSplineVertices c samples) = sample c samples /\
     List.length (ComputeSplineVertices c samples) = (3 * samples)%nat) /\
  computeCurve st (List.length rigs) samples
  = flat_map
      (fun ab => ComputeSplineVertices (segment (fst ab) (snd ab)) samples)
      (consecutive rigs).
Proof.
  intros H. split.
  - intros c. rewrite ComputeSplineVertices_sample, vertices_coords,
      coords_length, sample_length. now split.
  - rewrite (computeCurve_path st rigs samples H), path_consecutive,
      coords_flat_map.
    apply flat_map_ext. intros ab. now rewrite ComputeSplineVertices_sample.
Qed.

Lemma computeCurve_by_segments_witness :
  computeCurve (store_of two_rigs []) 2 10
  = ComputeSplineVertices
      (segment (lookingAt (THREE.vec3 0 1 2.5) (THREE.vec3 0 1 0))
               (lookingAt (THREE.vec3 2 1 2.5) (THREE.vec3 0 1 0))) 10
    ++ [].
Proof.
  exact (proj2 (computeCurve_by_segments (store_of two_rigs []) two_rigs 10
                  (holds_store_of two_rigs []))).
Defined.

(** ** More about one rig *)

Lemma Controls_eta (c : AuxCamera.Controls) :
  AuxCamera.mkControls
    (AuxCamera.pos c) (AuxCamera.rot c) (AuxCamera.foc c)
    (AuxCamera.near c) (AuxCamera.far c) (AuxCamera.fov c)
    (AuxCamera.aspect c) (AuxCamera.frustum c) (AuxCamera.helper c)
    (AuxCamera.leftHandle c) (AuxCamera.rightHandle c)
  = c.
Proof. now destruct c. Qed.

(** X14. The per-frame update is idempotent: a second update, with no drag
    in between, changes neither the objects nor the controls, and an
    update never changes the intrinsics or the handle offsets. *)
Theorem perFrameUpdate_idempotent (o : AuxCamera.Objects)
    (c : AuxCamera.Controls) :
  let o' := fst (AuxCamera.perFrameUpdate o c) in
  let c' := snd (AuxCamera.perFrameUpdate o c) in
  AuxCamera.perFrameUpdate o' c' = (o', c') /\
  AuxCamera.near c' = AuxCamera.near c /\
  AuxCamera.far c' = AuxCamera.far c /\
  AuxCamera.fov c' = AuxCamera.fov c /\
  AuxCamera.aspect c' = AuxCamera.aspect c /\
  AuxCamera.leftHandle c' = AuxCamera.leftHandle c /\
  AuxCamera.rightHandle c' = AuxCamera.rightHandle c.
Proof.
  cbv zeta. split; [|repeat apply conj; reflexivity].
  unfold AuxCamera.perFrameUpdate. cbn [fst snd].
  assert (Hfix : AuxCamera.useFrame
                   (AuxCamera.render (AuxCamera.useFrame o c))
                   (AuxCamera.useFrame o c)
                 = AuxCamera.useFrame o c).
  { unfold AuxCamera.useFrame, AuxCamera.render.
    cbn [AuxCamera.set AuxCamera.camera_position AuxCamera.camera_rotation
         AuxCamera.focal_position AuxCamera.pos AuxCamera.rot AuxCamera.foc
         AuxCamera.near AuxCamera.far AuxCamera.fov AuxCamera.aspect
         AuxCamera.frustum AuxCamera.helper AuxCamera.leftHandle
         AuxCamera.rightHandle].
    reflexivity. }
  now rewrite Hfix.
Qed.

Lemma sum_squares_zero (a b c : R) :
  a * a + b * b + c * c = 0 -> a = 0 /\ b = 0 /\ c = 0.
Proof. intros H. repeat apply conj; nra. Qed.

(** X15. The depth of the handles is never positive, and it is [0]
    exactly when the focal point is at the camera: otherwise both handles
    are strictly in front of the camera. *)
Theorem z_depth_zero_iff (c : AuxCamera.Controls) :
  AuxCamera.z_depth c <= 0 /\
  (AuxCamera.z_depth c = 0 <-> AuxCamera.pos c = AuxCamera.foc c).
Proof.
  split; [apply z_depth_nonpos|].
  unfold AuxCamera.z_depth, THREE.length, THREE.sub.
  cbn [THREE.x THREE.y THREE.z].
  destruct (AuxCamera.pos c) as [px py pz].
  destruct (AuxCamera.foc c) as [fx fy fz].
  cbn [THREE.x THREE.y THREE.z].
  set (s := (px - fx) * (px - fx) + (py - fy) * (py - fy)
            + (pz - fz) * (pz - fz)).
  assert (Hs : 0 <= s).
  { unfold s. pose proof (Rle_0_sqr (px - fx)).
    pose proof (Rle_0_sqr (py - fy)). pose proof (Rle_0_sqr (pz - fz)).
    unfold Rsqr in *. lra. }
  split.
  - intros H. assert (Hz : sqrt s = 0) by lra.
    apply (sqrt_eq_0 s Hs) in Hz.
    destruct (sum_squares_zero _ _ _ Hz) as (Hx & Hy & Hz').
    apply vec3_eq; lra.
  - intros [= -> -> ->]. unfold s.
    replace ((fx - fx) * (fx - fx) + (fy - fy) * (fy - fy)
             + (fz - fz) * (fz - fz)) with 0 by ring.
    rewrite sqrt_0. lra.
Qed.

Lemma initial_handles_in_range (p r f : THREE.Vector3) :
  handles_in_range (AuxCamera.useControls p r f).
Proof. unfold handles_in_range; simpl; lra. Qed.

(** X16. Whatever the edits of a rig's controls, the render puts the left
    handle at a negative and the right handle at a positive camera-local
    abscissa, both at height [0]; the dashed segment between them has
    length [leftHandle + rightHandle], between [0.2] and [4], so the two
    handles never meet and never swap sides. *)
Theorem handles_apart (p r f : THREE.Vector3) (es : list AuxCamera.Edit) :
  let c := edits es (AuxCamera.useControls p r f) in
  let o := AuxCamera.render c in
  THREE.x (AuxCamera.leftHandle_position o) <= -0.1 /\
  0.1 <= THREE.x (AuxCamera.rightHandle_position o) /\
  THREE.y (AuxCamera.leftHandle_position o) = 0 /\
  THREE.y (AuxCamera.rightHandle_position o) = 0 /\
  distance (AuxCamera.leftHandle_position o)
           (AuxCamera.rightHandle_position o)
  = AuxCamera.leftHandle c + AuxCamera.rightHandle c /\
  0.2 <= distance (AuxCamera.leftHandle_position o)
                  (AuxCamera.rightHandle_position o) <= 4 /\
  AuxCamera.lineVertices o
  = [- AuxCamera.leftHandle c; 0; AuxCamera.z_depth c;
     AuxCamera.rightHandle c; 0; AuxCamera.z_depth c].
Proof.
  intros c o.
  destruct (edits_handles_in_range es _ (initial_handles_in_range p r f))
    as [Hl Hr].
  fold c in Hl, Hr.
  assert (Hd : distance (AuxCamera.leftHandle_position o)
                        (AuxCamera.rightHandle_position o)
               = AuxCamera.leftHandle c + AuxCamera.rightHandle c).
  { unfold o, AuxCamera.render, distance.
    cbn [AuxCamera.leftHandle_position AuxCamera.rightHandle_position
         THREE.x THREE.y THREE.z].
    replace ((- AuxCamera.leftHandle c - AuxCamera.rightHandle c)²
             + (0 - 0)² + (AuxCamera.z_depth c - AuxCamera.z_depth c)²)
      with ((AuxCamera.leftHandle c + AuxCamera.rightHandle c)²)
      by (unfold Rsqr; ring).
    apply sqrt_Rsqr. lra. }
  repeat apply conj; try reflexivity.
  - unfold o, AuxCamera.render.
    cbn [AuxCamera.leftHandle_position THREE.x]. lra.
  - unfold o, AuxCamera.render.
    cbn [AuxCamera.rightHandle_position THREE.x]. lra.
  - exact Hd.
  - rewrite Hd. lra.
  - rewrite Hd. lra.
Qed.

(** X17. [updateFocal] and the render agree: after the handler of a gizmo
    has run on the objects that the last render placed, the next
    per-frame update leaves both handles where the handler put them. *)
Theorem updateFocal_then_frame
    (lookAt : THREE.Vector3 -> THREE.Vector3 -> THREE.Vector3)
    (c : AuxCamera.Controls) (camera focal : THREE.Vector3) :
  let dragged :=
    AuxCamera.mkObjects camera (AuxCamera.rot c)
      (AuxCamera.leftHandle_position (AuxCamera.render c))
      (AuxCamera.rightHandle_position (AuxCamera.render c))
      focal (AuxCamera.frustum_mesh (AuxCamera.render c)) in
  let o1 := AuxCamera.updateFocal lookAt dragged in
  let o2 := fst (AuxCamera.perFrameUpdate o1 c) in
  AuxCamera.leftHandle_position o2 = AuxCamera.leftHandle_position o1 /\
  AuxCamera.rightHandle_position o2 = AuxCamera.rightHandle_position o1 /\
  AuxCamera.camera_position o2 = camera /\
  AuxCamera.focal_position o2 = focal /\
  AuxCamera.camera_rotation o2 = lookAt camera focal.
Proof. cbv zeta. repeat apply conj; reflexivity. Qed.

Lemma sanitize_idempotent (inp : Leva.NumberInput) (v : R) :
  Leva.min inp <= Leva.max inp ->
  Leva.sanitize inp (Leva.sanitize inp v) = Leva.sanitize inp v.
Proof.
  intros H. unfold Leva.sanitize. apply clamp_id. now apply clamp_range.
Qed.

(** X18. An edit of a rig's controls is idempotent, and an edit of an
    intrinsic with a value inside the range of its input stores that very
    value. *)
Theorem edit_idempotent_exact (c : AuxCamera.Controls) :
  (forall e, AuxCamera.set e (AuxCamera.set e c) = AuxCamera.set e c) /\
  (forall v, 0.01 <= v <= 1 ->
     AuxCamera.near (AuxCamera.set (AuxCamera.edit_near v) c) = v) /\
  (forall v, 1 <= v <= 10 ->
     AuxCamera.far (AuxCamera.set (AuxCamera.edit_far v) c) = v) /\
  (forall v, 0 <= v <= 180 ->
     AuxCamera.fov (AuxCamera.set (AuxCamera.edit_fov v) c) = v) /\
  (forall v, 0.1 <= v <= 10 ->
     AuxCamera.aspect (AuxCamera.set (AuxCamera.edit_aspect v) c) = v).
Proof.
  repeat apply conj.
  - intros e.
    destruct e;
      cbn [AuxCamera.set AuxCamera.pos AuxCamera.rot AuxCamera.foc
           AuxCamera.near AuxCamera.far AuxCamera.fov AuxCamera.aspect
           AuxCamera.frustum AuxCamera.helper AuxCamera.leftHandle
           AuxCamera.rightHandle];
      try reflexivity;
      rewrite sanitize_idempotent by (simpl; lra); reflexivity.
  - intros v Hv. cbn [AuxCamera.set AuxCamera.near].
    unfold Leva.sanitize. apply clamp_id. simpl. lra.
  - intros v Hv. cbn [AuxCamera.set AuxCamera.far].
    unfold Leva.sanitize. apply clamp_id. simpl. lra.
  - intros v Hv. cbn [AuxCamera.set AuxCamera.fov].
    unfold Leva.sanitize. apply clamp_id. simpl. lra.
  - intros v Hv. cbn [AuxCamera.set AuxCamera.aspect].
    unfold Leva.sanitize. apply clamp_id. simpl. lra.
Qed.

Lemma edit_idempotent_exact_witness :
  AuxCamera.fov
    (AuxCamera.set (AuxCamera.edit_fov 90)
       (AuxCamera.useControls THREE.origin THREE.origin THREE.origin))
  = 90.
Proof.
  apply (proj1 (proj2 (proj2 (proj2
           (edit_idempotent_exact
              (AuxCamera.useControls THREE.origin THREE.origin
                 THREE.origin)))))).
  lra.
Defined.

(** ** The [Spline] that collects positions *)

Lemma last_cons_default {A : Type} (l : list A) (a d : A) :
  last (a :: l) d = last l a.
Proof.
  revert a d. induction l as [|b l IH]; intros a d; [reflexivity|].
  change (last (a :: b :: l) d) with (last (b :: l) d).
  now rewrite (IH b d), (IH b a).
Qed.

Lemma repeat_snoc {A : Type} (a : A) (k : nat) :
  repeat a k ++ [a] = repeat a (S k).
Proof.
  induction k as [|k IH]; [reflexivity|]. simpl. now rewrite IH.
Qed.

Lemma Draft_loop (scene : nat -> option THREE.Vector3) :
  forall (n lo : nat) (v : THREE.Vector3) (k : nat),
    let hits :=
      flat_map (fun i => match scene i with Some p => [p] | None => [] end)
               (seq lo n) in
    for_range lo n
      (fun i (hp : Draft.Heap * list nat) =>
         let (h, positions) := hp in
         match scene i with
         | Some p => (Draft.store h 0 p, push positions [0%nat])
         | None => (h, positions)
         end)
      ([v], repeat 0%nat k)
    = ([last hits v], repeat 0%nat (k + List.length hits)).
Proof.
  induction n as [|n IH]; intros lo v k; cbn [seq flat_map for_range].
  - cbn [last List.length]. now rewrite Nat.add_0_r.
  - destruct (scene lo) as [p|].
    + unfold Draft.store, push. cbn [firstn skipn app].
      rewrite repeat_snoc, IH. cbn [app List.length].
      rewrite last_cons_default. f_equal. f_equal. lia.
    + rewrite IH. reflexivity.
Qed.

(** X19. The [Spline] of the position-collecting variant pushes one and
    the same vector for every focal mesh it finds, so the array that it
    logs holds as many entries as there are focal meshes, all equal to the
    world position of the last one found. *)
Theorem Draft_Spline_aliases (scene : nat -> option THREE.Vector3)
    (count : nat) :
  Draft.logged scene count
  = repeat (last (Draft.found scene count) THREE.origin)
           (List.length (Draft.found scene count)).
Proof.
  unfold Draft.logged, Draft.found.
  change (Draft.Spline scene count)
    with (for_range 0 count
            (fun i (hp : Draft.Heap * list nat) =>
               let (h, positions) := hp in
               match scene i with
               | Some p => (Draft.store h 0 p, push positions [0%nat])
               | None => (h, positions)
               end)
            ([THREE.origin], repeat 0%nat 0)).
  rewrite (Draft_loop scene count 0 THREE.origin 0). cbn [Nat.add].
  rewrite map_repeat. reflexivity.
Qed.

(** ** The end of the path *)

Lemma path_snoc (samples : nat) (a b : RigPositions) :
  forall rigs : list RigPositions,
    path (rigs ++ [a; b]) samples
    = path (rigs ++ [a]) samples ++ sample (segment a b) samples.
Proof.
  induction rigs as [|r rest IH].
  - change (path ([] ++ [a; b]) samples)
      with (sample (segment a b) samples ++ []).
    change (path ([] ++ [a]) samples) with (@nil THREE.Vector3).
    now rewrite app_nil_r.
  - destruct rest as [|r' rest'].
    + change (path ([r] ++ [a; b]) samples)
        with (sample (segment r a) samples ++ path ([] ++ [a; b]) samples).
      change (path ([r] ++ [a]) samples)
        with (sample (segment r a) samples ++ path ([] ++ [a]) samples).
      now rewrite IH, app_assoc.
    + change ((r :: r' :: rest') ++ [a; b])
        with (r :: r' :: (rest' ++ [a; b])).
      change ((r :: r' :: rest') ++ [a])
        with (r :: r' :: (rest' ++ [a])).
      rewrite !path_cons.
      change (r' :: rest' ++ [a; b]) with ((r' :: rest') ++ [a; b]).
      change (r' :: rest' ++ [a]) with ((r' :: rest') ++ [a]).
      now rewrite IH, app_assoc.
Qed.

Lemma sample_last (c : THREE.CubicBezierCurve3) (samples : nat)
    (l : list THREE.Vector3) (d : THREE.Vector3) :
  (0 < samples)%nat ->
  last (l ++ sample c samples) d
  = THREE.getPoint c (INR (samples - 1) / INR samples).
Proof.
  intros Hs. unfold sample.
  assert (Hseq : seq 0 samples = seq 0 (samples - 1) ++ [(samples - 1)%nat]).
  { destruct samples as [|n]; [lia|].
    replace (S n - 1)%nat with n by lia. apply seq_S. }
  rewrite Hseq, map_app, app_assoc. cbn [map]. apply last_last.
Qed.

(** X20. The polyline stops one step short of the last rig: with at least
    one sample a segment, the last point of the buffer is the point of the
    last segment at the parameter [(samples - 1) / samples], whatever the
    number of rigs before the last two. *)
Theorem path_stops_short (st : Store) (rigs : list RigPositions)
    (a b : RigPositions) (samples : nat) :
  holds st (rigs ++ [a; b]) ->
  (0 < samples)%nat ->
  last (vertices
          (computeCurve st (List.length (rigs ++ [a; b])) samples))
       THREE.origin
  = THREE.getPoint (segment a b) (INR (samples - 1) / INR samples).
Proof.
  intros H Hs.
  rewrite (computeCurve_path st _ samples H), vertices_coords, path_snoc.
  now apply sample_last.
Qed.

Lemma path_stops_short_witness :
  last (vertices (computeCurve (store_of three_rigs leftover) 3 2))
       THREE.origin
  = THREE.getPoint
      (segment (mkRig (THREE.vec3 3 0 0) (THREE.vec3 2 0 0) (THREE.vec3 4 0 0))
               (mkRig (THREE.vec3 6 0 0) (THREE.vec3 5 0 0) (THREE.vec3 7 0 0)))
      (INR 1 / INR 2).
Proof.
  exact (path_stops_short (store_of three_rigs leftover)
           [mkRig (THREE.vec3 0 0 0) (THREE.vec3 (-1) 0 0) (THREE.vec3 1 0 0)]
           (mkRig (THREE.vec3 3 0 0) (THREE.vec3 2 0 0) (THREE.vec3 4 0 0))
           (mkRig (THREE.vec3 6 0 0) (THREE.vec3 5 0 0) (THREE.vec3 7 0 0))
           2 (holds_store_of three_rigs leftover) ltac:(lia)).
Defined.

(** ** The first render *)

Lemma put_at_end {A : Type} (arr : JSArray A) (i : nat) (v : A) :
  List.length arr = i -> put arr i v = arr ++ [Some v].
Proof.
  intros <-. unfold put. rewrite Nat.ltb_irrefl, Nat.sub_diag. reflexivity.
Qed.

Lemma has_past_end {A : Type} (arr : JSArray A) (i : nat) :
  (List.length arr <= i)%nat -> has arr i = false.
Proof.
  intros Hi. unfold has, get.
  assert (H : nth_error arr i = None) by now apply nth_error_None.
  now rewrite H.
Qed.

Lemma CameraBundle_fresh_fold (c : nat) (h : R) :
  forall k : nat,
    fold_left (CameraBundle_item c h) (seq 0 k) state0
    = mkStore None
        (map (fun i => Some (initFocal c h i)) (seq 0 k))
        (map (fun i => Some (initPos c h i)) (seq 0 k))
        (map (fun i => Some (initPos c h i)) (seq 0 k))
        0.
Proof.
  induction k as [|k IH]; [reflexivity|].
  rewrite seq_S, fold_left_app, IH. cbn [fold_left Nat.add].
  unfold CameraBundle_item. cbn [leftHandlePos].
  rewrite has_past_end by (rewrite length_map, length_seq; lia).
  cbn [negb]. unfold publish.
  cbn [focal focalPos leftHandlePos rightHandlePos mode].
  rewrite !put_at_end by (now rewrite length_map, length_seq).
  rewrite !map_app. reflexivity.
Qed.

Lemma CameraBundle_fresh (c : nat) (h : R) :
  CameraBundle_render c h state0
  = store_of (map (fresh_rig c h) (seq 0 c)) [].
Proof.
  unfold CameraBundle_render. rewrite CameraBundle_fresh_fold.
  unfold store_of. rewrite app_nil_r, !map_map. reflexivity.
Qed.

(** X21. On an empty store, the render of a bundle of [c] rigs leaves
    tables of exactly [c] entries: for rig [i] the focal point one unit
    ahead of its camera, and the camera position itself for both handles
    (the handles are not computed before the first frame). *)
Theorem first_render_tables (c : nat) (h : R) :
  let st := CameraBundle_render c h state0 in
  List.length (focalPos st) = c /\
  List.length (leftHandlePos st) = c /\
  List.length (rightHandlePos st) = c /\
  holds st (map (fresh_rig c h) (seq 0 c)) /\
  (forall i, (i < c)%nat ->
     get (focalPos st) i = Some (initFocal c h i) /\
     get (leftHandlePos st) i = Some (initPos c h i) /\
     get (rightHandlePos st) i = Some (initPos c h i)).
Proof.
  cbv zeta. rewrite CameraBundle_fresh.
  assert (Hholds : holds (store_of (map (fresh_rig c h) (seq 0 c)) [])
                         (map (fresh_rig c h) (seq 0 c)))
    by apply holds_store_of.
  unfold store_of at 1 2 3. cbn [focalPos leftHandlePos rightHandlePos].
  rewrite !length_map, length_app, length_map, length_seq. cbn [List.length].
  rewrite Nat.add_0_r.
  repeat apply conj; try reflexivity; [exact Hholds|].
  intros i Hi.
  apply (Hholds i (fresh_rig c h i)).
  rewrite nth_error_map, nth_error_seq.
  apply Nat.ltb_lt in Hi. now rewrite Hi.
Qed.

Lemma first_render_tables_witness :
  get (leftHandlePos (CameraBundle_render 4 1 state0)) 3
  = Some (initPos 4 1 3).
Proof.
  apply (proj2 (proj2 (proj2 (proj2 (first_render_tables 4 1)))) 3%nat).
  lia.
Defined.

Lemma CubicBezier_constant (t h : R) : THREE.CubicBezier t h h h h = h.
Proof.
  unfold THREE.CubicBezier, THREE.CubicBezierP0, THREE.CubicBezierP1,
    THREE.CubicBezierP2, THREE.CubicBezierP3. ring.
Qed.

Lemma path_in_plane (h : R) (samples : nat) :
  forall rigs : list RigPositions,
    Forall (fun r => THREE.y (rig_focal r) = h /\
                     THREE.y (rig_left r) = h /\
                     THREE.y (rig_right r) = h) rigs ->
    Forall (fun p => THREE.y p = h) (path rigs samples).
Proof.
  induction rigs as [|a rest IH]; intros Hall; [constructor|].
  destruct rest as [|b rest']; [constructor|].
  rewrite path_cons. apply Forall_app.
  pose proof (Forall_inv Hall) as (Hfa & _ & Hra).
  pose proof (Forall_inv_tail Hall) as Hrest.
  split; [|now apply IH].
  pose proof (Forall_inv Hrest) as (Hfb & Hlb & _).
  unfold sample. apply Forall_map, Forall_forall. intros k _.
  unfold THREE.getPoint, segment.
  cbn [THREE.y THREE.v0 THREE.v1 THREE.v2 THREE.v3].
  rewrite Hfa, Hra, Hlb, Hfb. apply CubicBezier_constant.
Qed.

Lemma bundle_height (c : nat) (h : R) (i : nat) :
  THREE.y (initFocal c h i) = h /\ THREE.y (initPos c h i) = h.
Proof.
  split; [|reflexivity].
  unfold initFocal, THREE.add, THREE.normalize, THREE.divideScalar,
    THREE.sub, initPos. cbn [THREE.x THREE.y THREE.z]. ring.
Qed.

(** X22. The path of a first render is flat: every point of the buffer
    that [computeCurve] builds from the tables of a fresh bundle is at the
    height of the bundle. *)
Theorem first_path_in_plane (c : nat) (h : R) (samples : nat) :
  Forall (fun p => THREE.y p = h)
         (vertices (computeCurve (CameraBundle_render c h state0) c samples)).
Proof.
  rewrite CameraBundle_fresh.
  pose proof (computeCurve_path
                (store_of (map (fresh_rig c h) (seq 0 c)) [])
                (map (fresh_rig c h) (seq 0 c)) samples
                (holds_store_of _ _)) as Hp.
  rewrite length_map, length_seq in Hp. rewrite Hp, vertices_coords.
  apply path_in_plane. apply Forall_map, Forall_forall. intros i _.
  unfold fresh_rig. cbn [rig_focal rig_left rig_right].
  destruct (bundle_height c h i) as [Hf Hp'].
  repeat apply conj; assumption.
Qed.

(** ** The store that names the root *)

Lemma Rooted_step_sync (ev : Rooted.Event) (w : Rooted.World) :
  (forall i,
     Rooted.focal (Rooted.state w) = Some (Rooted.focal_name i) ->
     (i < Rooted.count w)%nat) ->
  (Rooted.focal (Rooted.state w) = None /\
   Rooted.root (Rooted.state w) = None \/
   exists i,
     Rooted.focal (Rooted.state w) = Some (Rooted.focal_name i) /\
     Rooted.root (Rooted.state w) = Some (Rooted.root_name i)) ->
  let w' := Rooted.step ev w in
  (forall i,
     Rooted.focal (Rooted.state w') = Some (Rooted.focal_name i) ->
     (i < Rooted.count w')%nat) /\
  (Rooted.focal (Rooted.state w') = None /\
   Rooted.root (Rooted.state w') = None \/
   exists i,
     Rooted.focal (Rooted.state w') = Some (Rooted.focal_name i) /\
     Rooted.root (Rooted.state w') = Some (Rooted.root_name i)).
Proof.
  intros Hm Hs. cbv zeta.
  destruct ev as [i|ty|i|c]; unfold Rooted.step;
    cbn [Rooted.handle Rooted.state Rooted.count].
  - destruct (Nat.ltb_spec i (Rooted.count w)) as [Hi|Hi];
      cbn [Rooted.state Rooted.count Rooted.focal Rooted.root];
      [|now split].
    split; [intros j [= <-]; exact Hi|]. right. now exists i.
  - destruct (0 <? Rooted.count w)%nat; [destruct ty|];
      cbn [Rooted.state Rooted.count Rooted.focal Rooted.root];
      try (now split).
    split; [discriminate | now left].
  - destruct (i <? Rooted.count w)%nat; [|now split].
    destruct (Rooted.focal (Rooted.snap w)) as [[sel|sel]|]; try (now split).
    destruct (sel =? i)%nat;
      cbn [Rooted.state Rooted.count Rooted.focal Rooted.root];
      now split.
  - destruct (sanitize_count c =? Rooted.count w)%nat;
      cbn [Rooted.state Rooted.count Rooted.focal Rooted.root];
      [now split|].
    split; [discriminate | now left].
Qed.

(** X23. In the variant whose store names the root of the rig, after any
    sequence of events the two names are set together: either both are
    null, or they are the focal mesh and the root of one and the same
    mounted rig, so [Controls] shows both gizmos or none, on the same
    rig. *)
Theorem Rooted_focal_root_in_sync (evs : list Rooted.Event) :
  let w := Rooted.run evs Rooted.mount in
  Rooted.gizmos w = (None, None) \/
  exists i,
    (i < Rooted.count w)%nat /\
    Rooted.gizmos w
    = (Some (Rooted.focal_name i),
       Some (Rooted.root_name i,
             nth_error modes (Rooted.mode (Rooted.snap w)))).
Proof.
  cbv zeta.
  assert (Hinv : forall evs w,
            Rooted.snap w = Rooted.state w ->
            (forall i,
               Rooted.focal (Rooted.state w) = Some (Rooted.focal_name i) ->
               (i < Rooted.count w)%nat) ->
            (Rooted.focal (Rooted.state w) = None /\
             Rooted.root (Rooted.state w) = None \/
             exists i,
               Rooted.focal (Rooted.state w) = Some (Rooted.focal_name i) /\
               Rooted.root (Rooted.state w) = Some (Rooted.root_name i)) ->
            let w' := Rooted.run evs w in
            Rooted.snap w' = Rooted.state w' /\
            (forall i,
               Rooted.focal (Rooted.state w') = Some (Rooted.focal_name i) ->
               (i < Rooted.count w')%nat) /\
            (Rooted.focal (Rooted.state w') = None /\
             Rooted.root (Rooted.state w') = None \/
             exists i,
               Rooted.focal (Rooted.state w') = Some (Rooted.focal_name i) /\
               Rooted.root (Rooted.state w') = Some (Rooted.root_name i))).
  { clear evs. induction evs as [|ev evs IH]; intros w Hsnap Hm Hs.
    - cbn [Rooted.run]. repeat apply conj; assumption.
    - cbn [Rooted.run].
      destruct (Rooted_step_sync ev w Hm Hs) as [Hm' Hs'].
      apply IH; [reflexivity | exact Hm' | exact Hs']. }
  destruct (Hinv evs Rooted.mount eq_refl) as (Hsnap & Hm & Hs).
  - intros i H. discriminate H.
  - left. now split.
  - unfold Rooted.gizmos. rewrite Hsnap.
    destruct Hs as [[Hf Hr] | (i & Hf & Hr)].
    + left. now rewrite Hf, Hr.
    + right. exists i. split; [now apply Hm|]. now rewrite Hf, Hr.
Qed.

(** ** The layout of a first render *)

Lemma fresh_tables_get (c : nat) (h : R) (i : nat) :
  (i < c)%nat ->
  get (focalPos (CameraBundle_render c h state0)) i
  = Some (initFocal c h i) /\
  get (leftHandlePos (CameraBundle_render c h state0)) i
  = Some (initPos c h i) /\
  get (rightHandlePos (CameraBundle_render c h state0)) i
  = Some (initPos c h i).
Proof.
  intros Hi. rewrite CameraBundle_fresh.
  apply (holds_store_of (map (fresh_rig c h) (seq 0 c)) [] i
           (fresh_rig c h i)).
  rewrite nth_error_map, nth_error_seq.
  apply Nat.ltb_lt in Hi. now rewrite Hi.
Qed.

(** X11. At the first render of a bundle of [c] rigs, on empty tables, the
    camera of rig [i] (the position that its controls start from, that
    the render gives its camera object, and that both handle tables
    record) stands on a line at the given height and at [z = 2.5], two
    units from the camera of the next rig, and the line is centred on the
    subject: camera [i] mirrors camera [c - 1 - i].  This is a property of
    rigs that are mounted together; see [grown_bundle_overlaps]. *)
Theorem first_render_layout (c : nat) (h : R) (i : nat)
    (initRot : THREE.Vector3) :
  (i < c)%nat ->
  let st := CameraBundle_render c h state0 in
  let camera j :=
    AuxCamera.camera_position
      (AuxCamera.render
         (AuxCamera.useControls (initPos c h j) initRot (initFocal c h j))) in
  get (leftHandlePos st) i = Some (camera i) /\
  get (rightHandlePos st) i = Some (camera i) /\
  get (leftHandlePos st) (c - 1 - i) = Some (camera (c - 1 - i)%nat) /\
  THREE.x (camera i) = - THREE.x (camera (c - 1 - i)%nat) /\
  THREE.x (camera (S i)) - THREE.x (camera i) = 2 /\
  THREE.y (camera i) = h /\
  THREE.z (camera i) = 2.5 /\
  - (INR c - 1) <= THREE.x (camera i) <= INR c - 1.
Proof.
  intros Hi. cbv zeta.
  unfold AuxCamera.render, AuxCamera.useControls.
  cbn [AuxCamera.camera_position AuxCamera.pos].
  destruct (fresh_tables_get c h i Hi) as (_ & Hl & Hr).
  destruct (fresh_tables_get c h (c - 1 - i) ltac:(lia)) as (_ & Hl' & _).
  destruct (initPos_layout c h i Hi) as (Hsym & Hstep & Hy & Hz & Hx1 & Hx2).
  repeat apply conj; assumption.
Qed.

Lemma first_render_layout_witness :
  get (leftHandlePos (CameraBundle_render 4 1 state0)) 0
  = Some (THREE.vec3 (-3) 1 2.5).
Proof.
  rewrite (proj1 (first_render_layout 4 1 0 THREE.origin ltac:(lia))).
  unfold AuxCamera.render, AuxCamera.useControls, initPos, bundle_offset,
    interval.
  cbn [AuxCamera.camera_position AuxCamera.pos INR].
  f_equal. apply vec3_eq; lra.
Defined.

(** Rigs that a count edit adds are placed by the layout of the new count,
    while the rigs that were there keep their entries: from four rigs to
    six, the entry of rig 4 is the entry of rig 3. *)
Example grown_bundle_overlaps :
  get (leftHandlePos (state (step (SetCount 6) mount))) 4
  = get (leftHandlePos (state (step (SetCount 6) mount))) 3.
Proof.
  lazy -[IZR INR]. f_equal. apply vec3_eq; simpl INR; lra.
Qed.
